(** * uproot_methods.classes.TVector3: a shallow embedding

    The module defines a 3-component vector in two representations that
    share one geometry kernel ([Common]): a scalar object ([Methods],
    [TVector3]) and a columnar batch ([ArrayMethods], [TVector3Array]).

    Python objects live in a heap and are referred to by position, so that
    "a new instance" and "the operands are left unmodified" are statements
    about the heap.  Every method is a computation in a state-and-exception
    monad over that heap.  The element type of the numbers is a parameter
    [F] with the arithmetic the code uses.  Results that pin a value to the
    expression the source evaluates hold for every [F]; the algebraic
    identities are read at [F := R], that is in exact arithmetic; what the
    program computes in binary64 is read at the primitive floats, for the
    rendering ([F := float]) and for the values that break an exact
    identity ([F := float64]).

    What the module takes from elsewhere (the array library's elementwise
    primitives, its columnar store and [empty_like]) is modelled from the
    specification and marked as such; the method [unit] of the vector
    interface base and the constructor call [Methods(x, y, z)] are
    parameters.  The methods [cottheta] and [theta] are not embedded: no
    property proved here is about them. *)

From Stdlib Require Import PrimFloat.
From Stdlib Require SpecFloat FloatOps DecimalPos DecimalN.
From Stdlib Require Import Reals Lra Lia ZArith QArith String Ascii List DecimalString.
From Stdlib Require Import RNsatz.
From stdpp Require Import base option list strings gmap.
Import ListNotations.

(** ** Numbers *)

Class Arith (F : Type) := {
  f_one : F;
  f_add : F -> F -> F;
  f_sub : F -> F -> F;
  f_mul : F -> F -> F;
  f_neg : F -> F
}.

Class Trig (F : Type) := {
  f_cos : F -> F;
  f_sin : F -> F
}.

(** [format(v, ".4g")] of the built-in string formatting. *)
Class Format (F : Type) := {
  format_4g : F -> string
}.

(** Exact arithmetic: the real numbers, with the sine and cosine of
    analysis.  An identity proved at this instance is an identity of the
    expressions the code evaluates, read in exact arithmetic; it is not by
    itself a statement about the rounded values the program computes. *)
#[export] Instance R_Arith : Arith R :=
  {| f_one := 1%R; f_add := Rplus; f_sub := Rminus; f_mul := Rmult; f_neg := Ropp |}.
#[export] Instance R_Trig : Trig R :=
  {| f_cos := cos; f_sin := sin |}.
#[export] Instance Q_Arith : Arith Q :=
  {| f_one := 1%Q; f_add := Qplus; f_sub := Qminus; f_mul := Qmult; f_neg := Qopp |}.

(** ** Binary64

    The numbers the program computes with are IEEE 754 binary64 values.
    [float] is that type; its [+], [-], [*] and square root are the
    correctly rounded operations of the standard (round to nearest, ties to
    even), which is what the interpreter and [math.sqrt] perform.

    [math.sin] and [math.cos] are functions of the platform's math library,
    not operations of the standard.  Their values are listed here for the
    arguments that are used below: at a zero the standard fixes them
    (sin(+-0) = +-0, cos(+-0) = 1), and at 1.5 and 2.5 the entry is the
    correctly rounded value of the real sine or cosine, which is what the
    library returns there.  At every other argument the result is
    [Undetermined], and so is everything that is computed from it. *)

Inductive float64 :=
  | F64 (x : float)
  | Undetermined.

Definition f64_lift1 (op : float -> float) (a : float64) : float64 :=
  match a with
  | F64 x => F64 (op x)
  | Undetermined => Undetermined
  end.

Definition f64_lift2 (op : float -> float -> float) (a b : float64) : float64 :=
  match a, b with
  | F64 x, F64 y => F64 (op x y)
  | _, _ => Undetermined
  end.

Definition libm_sin (x : float) : float64 :=
  if PrimFloat.eqb x 0%float then F64 x
  else if PrimFloat.eqb x 1.5%float then F64 0x1.feb7a9b2c6d8bp-1%float
  else if PrimFloat.eqb x 2.5%float then F64 0x1.326af0dcfcab1p-1%float
  else Undetermined.

Definition libm_cos (x : float) : float64 :=
  if PrimFloat.eqb x 0%float then F64 1%float
  else if PrimFloat.eqb x 1.5%float then F64 0x1.21bd54fc5f9a7p-4%float
  else if PrimFloat.eqb x 2.5%float then F64 (-0x1.9a2f7ef858b7dp-1)%float
  else Undetermined.

Definition f64_apply (f : float -> float64) (a : float64) : float64 :=
  match a with
  | F64 x => f x
  | Undetermined => Undetermined
  end.

#[export] Instance F64_Arith : Arith float64 :=
  {| f_one := F64 1%float;
     f_add := f64_lift2 PrimFloat.add;
     f_sub := f64_lift2 PrimFloat.sub;
     f_mul := f64_lift2 PrimFloat.mul;
     f_neg := f64_lift1 PrimFloat.opp |}.
#[export] Instance F64_Trig : Trig float64 :=
  {| f_cos := f64_apply libm_cos; f_sin := f64_apply libm_sin |}.


(** ** The [.4g] presentation of a number

    The general format with precision 4 rounds the value to 4 significant
    digits (ties to even on the exact value), then uses fixed notation with
    precision [3 - e] when the decimal exponent [e] satisfies [-4 <= e < 4],
    and scientific notation with precision 3 otherwise; in both notations
    insignificant trailing zeros, and a decimal point that nothing follows,
    are removed.  The conversion works on the exact value n/d of the
    number. *)

Module Format4g.
Local Open Scope Z_scope.

(** 10^k <= n/d *)
Definition ge_pow10 (n d : positive) (k : Z) : bool :=
  if 0 <=? k then Z.pos d * 10 ^ k <=? Z.pos n
  else Z.pos d <=? Z.pos n * 10 ^ (- k).

(** The first [k], going down from [hi], at which [p] holds, among [fuel]
    candidates; [hi - fuel] when there is none. *)
Fixpoint search_down (p : Z -> bool) (hi : Z) (fuel : nat) : Z :=
  match fuel with
  | O => hi
  | S f => if p hi then hi else search_down p (hi - 1) f
  end.

(** The number of decimal digits of a positive integer. *)
Definition ndigits (p : positive) : Z := Z.of_nat (Decimal.nb_digits (Pos.to_uint p)).

(** 10^k <= n/d < 10^(k+1) *)
Definition in_decade (n d : positive) (k : Z) : bool :=
  ge_pow10 n d k && negb (ge_pow10 n d (k + 1)).

(** The decimal exponent of n/d: the [e] with 10^e <= n/d < 10^(e+1).
    The difference of the numbers of digits of [n] and [d] is that
    exponent, or one more; the two candidates are tested.  (The exponent
    is less than the number of bits of [n] and at least minus the number
    of bits of [d]: a search over that range stands behind the test.) *)
Definition decimal_exponent (n d : positive) : Z :=
  let e0 := ndigits n - ndigits d in
  if in_decade n d e0 then e0
  else if in_decade n d (e0 - 1) then e0 - 1
  else search_down (ge_pow10 n d) (Z.pos (Pos.size n))
         (Pos.to_nat (Pos.size n + Pos.size d)).

(** num/den rounded to the nearest integer, ties to even. *)
Definition round_half_even (num den : Z) : Z :=
  let q := num / den in
  let r := num mod den in
  match 2 * r ?= den with
  | Lt => q
  | Gt => q + 1
  | Eq => if Z.even q then q else q + 1
  end.

(** n/d * 10^(3 - e) as a fraction: numerator and denominator. *)
Definition scaled_num (n : positive) (e : Z) : Z :=
  if 0 <=? 3 - e then Z.pos n * 10 ^ (3 - e) else Z.pos n.

Definition scaled_den (d : positive) (e : Z) : Z :=
  if 0 <=? 3 - e then Z.pos d else Z.pos d * 10 ^ (e - 3).

(** n/d scaled to four digits before the point, and rounded. *)
Definition scaled4 (n d : positive) (e : Z) : Z :=
  round_half_even (scaled_num n e) (scaled_den d e).

(** Rounding may carry into a fifth digit: 9999.5 becomes 1.000e4. *)
Definition significand4 (n d : positive) : Z * Z :=
  let e := decimal_exponent n d in
  let m := scaled4 n d e in
  if m =? 10000 then (1000, e + 1) else (m, e).

Definition digit_char (d : Z) : ascii :=
  match d with
  | 1 => "1" | 2 => "2" | 3 => "3" | 4 => "4" | 5 => "5"
  | 6 => "6" | 7 => "7" | 8 => "8" | 9 => "9" | _ => "0"
  end%char.

Definition digits4 (m : Z) : list ascii :=
  [digit_char (m / 1000); digit_char (m / 100 mod 10);
   digit_char (m / 10 mod 10); digit_char (m mod 10)].

Definition is_zero_char (c : ascii) : bool := Ascii.eqb c "0".

(** Insignificant trailing zeros are removed from the fraction. *)
Definition strip_zeros (l : list ascii) : list ascii :=
  fold_right (fun c acc => match acc with
                           | [] => if is_zero_char c then [] else [c]
                           | _ => c :: acc
                           end) [] l.

(** The decimal point is removed too when no fraction digit remains. *)
Definition with_point (int frac : list ascii) : list ascii :=
  match strip_zeros frac with
  | [] => int
  | f => int ++ "."%char :: f
  end.

(** The exponent is written with a sign and at least two digits. *)
Definition exponent_chars (e : Z) : list ascii :=
  let a := Z.abs e in
  let sign := if e <? 0 then "-"%char else "+"%char in
  let ds := list_ascii_of_string (NilZero.string_of_uint (N.to_uint (Z.to_N a))) in
  "e"%char :: sign :: (if a <? 10 then "0"%char :: ds else ds).

(** Fixed notation when -4 <= e < 4, scientific notation otherwise. *)
Definition fixed_range (e : Z) : bool := (-4 <=? e) && (e <? 4).

(** The numeral for m * 10^(e - 3), where m has four digits. *)
Definition body_4g (m e : Z) : list ascii :=
  let ds := digits4 m in
  if fixed_range e then
    if 0 <=? e then with_point (take (Z.to_nat (e + 1)) ds) (drop (Z.to_nat (e + 1)) ds)
    else with_point ["0"%char] (replicate (Z.to_nat (- e - 1)) "0"%char ++ ds)
  else with_point (take 1 ds) (drop 1 ds) ++ exponent_chars e.

Definition layout_4g (neg : bool) (n d : positive) : list ascii :=
  let '(m, e) := significand4 n d in
  let body := body_4g m e in
  if neg then "-"%char :: body else body.

(** The conversion of a rational: the exact value of a finite float that
    is not a zero.  (A rational has no sign of zero, and there is no
    infinite or undefined rational: [format_4g_float] below covers those
    floats.) *)
Definition format_4g_Q (q : Q) : string :=
  match Qnum q with
  | Z0 => "0"
  | Z.pos n => string_of_list_ascii (layout_4g false n (Qden q))
  | Z.neg n => string_of_list_ascii (layout_4g true n (Qden q))
  end.




End Format4g.

#[export] Instance Q_Format : Format Q :=
  {| format_4g := Format4g.format_4g_Q |}.

(** ** Counting the significant digits of a rendered number *)

Module Digits.
Import Format4g.

Definition is_digit_char (c : ascii) : bool :=
  (48 <=? nat_of_ascii c)%nat && (nat_of_ascii c <=? 57)%nat.

Definition not_e (c : ascii) : bool := negb (Ascii.eqb c "e").

(** The significand: the characters before the exponent mark. *)
Fixpoint take_until_e (l : list ascii) : list ascii :=
  match l with
  | [] => []
  | c :: l' => if not_e c then c :: take_until_e l' else []
  end.

Fixpoint drop_zeros (l : list ascii) : list ascii :=
  match l with
  | [] => []
  | c :: l' => if is_zero_char c then drop_zeros l' else l
  end.

(** The number of significant digits of a rendered number: the digits of
    the significand from the first one that is not zero. *)
Definition sig_chars (l : list ascii) : nat :=
  length (drop_zeros (List.filter is_digit_char (take_until_e l))).

Definition significant_digits (s : string) : nat :=
  sig_chars (list_ascii_of_string s).

End Digits.

(** ** Reading a rendered number

    What a decimal numeral denotes, and what it looks like: the vocabulary
    in which the presentation of a number is specified. *)

Module Numeral.
Import Format4g Digits.
Local Open Scope Z_scope.























End Numeral.

(** ** Exceptions and results *)

Inductive pyexc :=
  | NameError (name : string)
  | TypeError
  | ValueError
  | KeyError (key : string)
  | AttributeError (attr : string)
  | NotImplementedError.

Inductive res (A : Type) :=
  | Ok (a : A)
  | Raise (e : pyexc).
Arguments Ok {A} a.
Arguments Raise {A} e.

(** A reference is a position in the heap. *)
Definition ref := nat.

Section Model.

Context {F : Type} {AF : Arith F} {TF : Trig F}.

(** ** Numeric values: a single number or a one-dimensional array *)

Inductive ndval :=
  | Num (r : F)
  | Arr (l : list F).

(** Modelled from the spec: the elementwise numeric primitives operate
    uniformly over scalars and sequences.  A binary operation broadcasts a
    scalar (or a one-element array) against an array and raises ValueError
    on arrays whose lengths cannot be broadcast together. *)
Definition np_binop (f : F -> F -> F) (a b : ndval) : res ndval :=
  match a, b with
  | Num p, Num q => Ok (Num (f p q))
  | Num p, Arr l => Ok (Arr (map (f p) l))
  | Arr l, Num q => Ok (Arr (map (fun p => f p q) l))
  | Arr l1, Arr l2 =>
      if decide (length l1 = length l2) then Ok (Arr (zip_with f l1 l2))
      else match l1, l2 with
           | [p], _ => Ok (Arr (map (f p) l2))
           | _, [q] => Ok (Arr (map (fun p => f p q) l1))
           | _, _ => Raise ValueError
           end
  end.

(** Modelled from the spec: the augmented assignment [a op= b].  On a number
    it rebinds the name to [a op b]; on an array it writes into [a], so the
    broadcast result must have the length of [a].  All arrays here hold
    elements of the one type [F]: the rule that an in-place operation
    refuses a result of a wider element type than the array it writes into
    has no counterpart, and nothing is stated below about batches whose
    columns differ in element type. *)
Definition np_iop (f : F -> F -> F) (a b : ndval) : res ndval :=
  match a, b with
  | Num _, _ => np_binop f a b
  | Arr l, Num q => Ok (Arr (map (fun p => f p q) l))
  | Arr l1, Arr l2 =>
      if decide (length l1 = length l2) then Ok (Arr (zip_with f l1 l2))
      else match l2 with
           | [q] => Ok (Arr (map (fun p => f p q) l1))
           | _ => Raise ValueError
           end
  end.

Definition np_unop (f : F -> F) (a : ndval) : ndval :=
  match a with
  | Num p => Num (f p)
  | Arr l => Arr (map f l)
  end.

(** [len(v)]: a number has no length. *)
Definition py_len (v : ndval) : res nat :=
  match v with
  | Arr l => Ok (length l)
  | Num _ => Raise TypeError
  end.

(** ** The columnar store *)

Record Table := mkTable {
  rowcount : nat;
  contents : gmap string (list F)
}.

(** Modelled from the spec: the columnar store is constructed from a row
    count and has no column yet. *)
Definition Table_new (n : nat) : Table := mkTable n ∅.

(** Modelled from the spec: reading a named column returns the sequence
    aligned with the rows of the table, that is its first [rowcount]
    entries; a column that was never assigned is a KeyError. *)
Definition Table_getitem (t : Table) (k : string) : res ndval :=
  match contents t !! k with
  | Some l => Ok (Arr (take (rowcount t) l))
  | None => Raise (KeyError k)
  end.

(** Modelled from the spec: writing replaces the column.  The assignment
    itself compares no lengths: a sequence longer than the row count is
    stored (a batch built from sequences of unequal length has the length
    of the shortest), and so is a shorter one, which is then read back with
    the entries it has.  Keeping the columns as long as the rows is left to
    the caller.  A plain number is not a column. *)
Definition Table_setitem (t : Table) (k : string) (v : ndval) : res Table :=
  match v with
  | Arr l => Ok (mkTable (rowcount t) (<[k:=l]> (contents t)))
  | Num _ => Raise ValueError
  end.

(** ** Objects and the heap *)

(** The concrete class of an instance.  A class is named; it is either
    [TVector3] or a subclass that keeps its three-argument constructor, or
    [TVector3Array] or such a subclass. *)
Inductive pyclass :=
  | ScalarClass (name : string)
  | ArrayClass (name : string).

Inductive pyobj :=
  | Vector (cls : string) (fX fY fZ : ndval)
  | VectorArray (cls : string) (t : Table).

Definition heap := list pyobj.

(** The values that names and results range over: numbers and arrays,
    references to vector objects, the constants None and NotImplemented,
    exception instances, module-level objects (classes, modules, built-in
    functions) and tuples. *)
#[local] Unset Elimination Schemes.
Inductive pyval :=
  | PNum (v : ndval)
  | PRef (r : ref)
  | PNone
  | PNotImplemented
  | PExc (e : pyexc)
  | PGlobal (name : string)
  | PTuple (l : list pyval).
#[local] Set Elimination Schemes.

(** ** The monad of heap computations that may raise *)

Definition M (A : Type) : Type := heap -> res A * heap.

Definition ret {A} (a : A) : M A := fun h => (Ok a, h).

Definition bind {A B} (m : M A) (k : A -> M B) : M B :=
  fun h =>
    match m h with
    | (Ok a, h') => k a h'
    | (Raise e, h') => (Raise e, h')
    end.

Definition throw {A} (e : pyexc) : M A := fun h => (Raise e, h).

Definition lift {A} (r : res A) : M A := fun h => (r, h).

Notation "x <~ m ;; k" := (bind m (fun x => k))
  (at level 100, m at next level, right associativity).
Notation "m ;;; k" := (bind m (fun _ => k))
  (at level 100, right associativity).

(** [raise v]: only an exception can be raised; raising anything else is
    itself a TypeError. *)
Definition py_raise {A} (v : pyval) : M A :=
  match v with
  | PExc e => throw e
  | _ => throw TypeError
  end.

Definition alloc (o : pyobj) : M ref :=
  fun h => (Ok (length h), h ++ [o]).

Definition load (r : ref) : M pyobj :=
  fun h =>
    match h !! r with
    | Some o => (Ok o, h)
    | None => (Raise (AttributeError "dangling"), h)
    end.

Definition store (r : ref) (o : pyobj) : M unit :=
  fun h => (Ok tt, <[r:=o]> h).

(** The binary operators on the results of two sub-expressions, evaluated
    left to right. *)
Definition lift2 (op : ndval -> ndval -> res ndval) (p q : M ndval) : M ndval :=
  a <~ p ;; b <~ q ;; lift (op a b).

Definition lift1 (op : ndval -> ndval) (p : M ndval) : M ndval :=
  a <~ p ;; ret (op a).

Coercion nd_const (v : ndval) : M ndval := ret v.

Notation "p +' q" := (lift2 (np_binop f_add) p q) (at level 50, left associativity).
Notation "p -' q" := (lift2 (np_binop f_sub) p q) (at level 50, left associativity).
Notation "p *' q" := (lift2 (np_binop f_mul) p q) (at level 40, left associativity).
Notation "p +=' q" := (lift2 (np_iop f_add) p q) (at level 50, left associativity).
Notation "-' p" := (lift1 (np_unop f_neg) p) (at level 35, right associativity).

(** [p ** 2] *)
Definition pow2 (p : M ndval) : M ndval := lift1 (np_unop (fun a => f_mul a a)) p.

(** ** Attribute access *)

(** [obj[name]] on a batch: the named column of its table. *)
Definition getitem (r : ref) (k : string) : M ndval :=
  o <~ load r ;;
  match o with
  | VectorArray _ t => lift (Table_getitem t k)
  | Vector _ _ _ _ => throw TypeError
  end.

(** [obj[name] = value] on a batch. *)
Definition setitem (r : ref) (k : string) (v : ndval) : M unit :=
  o <~ load r ;;
  match o with
  | VectorArray c t => t' <~ lift (Table_setitem t k v) ;; store r (VectorArray c t')
  | Vector _ _ _ _ => throw TypeError
  end.

(** The properties [x], [y], [z]: [Methods] reads the instance fields,
    [ArrayMethods] reads the columns fX, fY, fZ. *)
Definition attr_x (r : ref) : M ndval :=
  o <~ load r ;;
  match o with
  | Vector _ fX _ _ => ret fX
  | VectorArray _ _ => getitem r "fX"
  end.

Definition attr_y (r : ref) : M ndval :=
  o <~ load r ;;
  match o with
  | Vector _ _ fY _ => ret fY
  | VectorArray _ _ => getitem r "fY"
  end.

Definition attr_z (r : ref) : M ndval :=
  o <~ load r ;;
  match o with
  | Vector _ _ _ fZ => ret fZ
  | VectorArray _ _ => getitem r "fZ"
  end.

(** ** class Common *)

Definition dot (self other : ref) : M ndval :=
  out <~ attr_x self *' attr_x other ;;
  out <~ out +=' (attr_y self *' attr_y other) ;;
  out <~ out +=' (attr_z self *' attr_z other) ;;
  ret out.

Definition _cross (self other : ref) : M (ndval * ndval * ndval) :=
  cx <~ attr_y self *' attr_z other -' attr_z self *' attr_y other ;;
  cy <~ attr_z self *' attr_x other -' attr_x self *' attr_z other ;;
  cz <~ attr_x self *' attr_y other -' attr_y self *' attr_x other ;;
  ret (cx, cy, cz).

Definition _rotate_euler (self : ref) (phi theta psi : ndval)
  : M (ndval * ndval * ndval) :=
  let c1 := np_unop f_cos phi in
  let s1 := np_unop f_sin phi in
  let c2 := np_unop f_cos theta in
  let s2 := np_unop f_sin theta in
  let c3 := np_unop f_cos psi in
  let s3 := np_unop f_sin psi in
  fzx2 <~ -' s2 *' c1 ;;
  fzy2 <~ s2 *' s1 ;;
  let fzz2 := c2 in
  fxx3 <~ c3 *' c2 *' c1 -' s3 *' s1 ;;
  fxy3 <~ -' c3 *' c2 *' s1 -' s3 *' c1 ;;
  fxz3 <~ c3 *' s2 ;;
  fyx3 <~ s3 *' c2 *' c1 +' c3 *' s1 ;;
  fyy3 <~ -' s3 *' c2 *' s1 +' c3 *' c1 ;;
  fyz3 <~ s3 *' s2 ;;
  x <~ fxx3 *' attr_x self +' fxy3 *' attr_y self +' fxz3 *' attr_z self ;;
  y <~ fyx3 *' attr_x self +' fyy3 *' attr_y self +' fyz3 *' attr_z self ;;
  z <~ fzx2 *' attr_x self +' fzy2 *' attr_y self +' fzz2 *' attr_z self ;;
  ret (x, y, z).

(** The method [unit] belongs to the vector interface base, which is not
    part of this module; it is a parameter of the axis rotation.  It
    returns a vector (the axis with its magnitude divided out). *)
Variable TVector_unit : ref -> M ref.

Definition _rotate_axis (self axis : ref) (angle : ndval)
  : M (ndval * ndval * ndval) :=
  u <~ TVector_unit axis ;;
  let c := np_unop f_cos angle in
  let s := np_unop f_sin angle in
  c1 <~ Num f_one -' c ;;
  x <~ (c +' pow2 (attr_x u) *' c1) *' attr_x self
       +' (attr_x u *' attr_y u *' c1 -' attr_z u *' s) *' attr_y self
       +' (attr_x u *' attr_z u *' c1 +' attr_y u *' s) *' attr_z self ;;
  y <~ (attr_x u *' attr_y u *' c1 +' attr_z u *' s) *' attr_x self
       +' (c +' pow2 (attr_y u) *' c1) *' attr_y self
       +' (attr_y u *' attr_z u *' c1 -' attr_x u *' s) *' attr_z self ;;
  z <~ (attr_x u *' attr_z u *' c1 -' attr_y u *' s) *' attr_x self
       +' (attr_y u *' attr_z u *' c1 +' attr_x u *' s) *' attr_y self
       +' (c +' pow2 (attr_z u) *' c1) *' attr_z self ;;
  ret (x, y, z).

(** ** Classes and construction *)

Definition class_of (r : ref) : M pyclass :=
  o <~ load r ;;
  match o with
  | Vector c _ _ _ => ret (ScalarClass c)
  | VectorArray c _ => ret (ArrayClass c)
  end.

(** [TVector3.__init__] *)
Definition TVector3___init__ (cls : string) (x y z : ndval) : M ref :=
  alloc (Vector cls x y z).

(** [TVector3Array.__init__] *)
Definition TVector3Array___init__ (cls : string) (x y z : ndval) : M ref :=
  nx <~ lift (py_len x) ;;
  ny <~ lift (py_len y) ;;
  nz <~ lift (py_len z) ;;
  self <~ alloc (VectorArray cls (Table_new (Nat.min (Nat.min nx ny) nz))) ;;
  setitem self "fX" x ;;;
  setitem self "fY" y ;;;
  setitem self "fZ" z ;;;
  ret self.

(** Calling a class with three arguments. *)
Definition instantiate (c : pyclass) (x y z : ndval) : M ref :=
  match c with
  | ScalarClass n => TVector3___init__ n x y z
  | ArrayClass n => TVector3Array___init__ n x y z
  end.

(** Modelled from the spec: the shape-preserving allocation [empty_like]
    of the base capability set returns a new instance of the same class
    with the same row count and uninitialised coordinates. *)
Definition empty_like (self : ref) : M ref :=
  o <~ load self ;;
  match o with
  | VectorArray c t => alloc (VectorArray c (Table_new (rowcount t)))
  | Vector _ _ _ _ => throw (AttributeError "empty_like")
  end.

(** ** class ArrayMethods *)

Definition ArrayMethods_cross (self other : ref) : M ref :=
  p <~ _cross self other ;;
  let '(x, y, z) := p in
  out <~ empty_like self ;;
  setitem out "fX" x ;;;
  setitem out "fY" y ;;;
  setitem out "fZ" z ;;;
  ret out.

Definition ArrayMethods_rotate_axis (self axis : ref) (angle : ndval) : M ref :=
  p <~ _rotate_axis self axis angle ;;
  let '(x, y, z) := p in
  out <~ empty_like self ;;
  setitem out "fX" x ;;;
  setitem out "fY" y ;;;
  setitem out "fZ" z ;;;
  ret out.

Definition ArrayMethods_rotate_euler (self : ref) (phi theta psi : ndval) : M ref :=
  p <~ _rotate_euler self phi theta psi ;;
  let '(x, y, z) := p in
  out <~ empty_like self ;;
  setitem out "fX" x ;;;
  setitem out "fY" y ;;;
  setitem out "fZ" z ;;;
  ret out.

(** A ufunc is looked up by method name ([getattr(ufunc, method)]) and
    applied to positional inputs and keyword arguments.  Modelled from the
    spec: the elementwise primitives compute a value (or a tuple of values)
    from their inputs and do not write to the heap.  A keyword argument
    that names an array to write the result into is therefore not
    represented: what a call computes is stated below for calls without
    keyword arguments only. *)
Definition kwargs := list (string * pyval).

Record ufunc := mkUfunc {
  uf_getattr : string -> option (list pyval -> kwargs -> res pyval)
}.

Definition getattr_ufunc (u : ufunc) (method : string)
  : M (list pyval -> kwargs -> res pyval) :=
  match uf_getattr u method with
  | Some f => ret f
  | None => throw (AttributeError method)
  end.

(** [isinstance(obj, ArrayMethods)] *)
Definition isinstance_ArrayMethods (obj : pyval) : M (option ref) :=
  match obj with
  | PRef r =>
      o <~ load r ;;
      match o with
      | VectorArray _ _ => ret (Some r)
      | Vector _ _ _ _ => ret None
      end
  | _ => ret None
  end.

(** The loop over [inputs] that fills [inputsx], [inputsy], [inputsz]. *)
Fixpoint split_inputs (inputs : list pyval)
  : M (list pyval * list pyval * list pyval) :=
  match inputs with
  | [] => ret ([], [], [])
  | obj :: rest =>
      b <~ isinstance_ArrayMethods obj ;;
      match b with
      | Some r =>
          x <~ attr_x r ;;
          y <~ attr_y r ;;
          z <~ attr_z r ;;
          p <~ split_inputs rest ;;
          let '(xs, ys, zs) := p in
          ret (PNum x :: xs, PNum y :: ys, PNum z :: zs)
      | None =>
          p <~ split_inputs rest ;;
          let '(xs, ys, zs) := p in
          ret (obj :: xs, obj :: ys, obj :: zs)
      end
  end.

(** [out[name] = value] for the result of a ufunc: the store takes
    numbers and arrays only. *)
Definition setitem_py (r : ref) (k : string) (v : pyval) : M unit :=
  match v with
  | PNum a => setitem r k a
  | _ => throw TypeError
  end.

(** The loop over [zip(resultx, resulty, resultz)]. *)
Fixpoint pack_outputs (self : ref) (rx ry rz : list pyval) : M (list pyval) :=
  match rx, ry, rz with
  | x :: rx', y :: ry', z :: rz' =>
      o <~ empty_like self ;;
      setitem_py o "fX" x ;;;
      setitem_py o "fY" y ;;;
      setitem_py o "fZ" z ;;;
      out <~ pack_outputs self rx' ry' rz' ;;
      ret (PRef o :: out)
  | _, _, _ => ret []
  end.

Definition __array_ufunc__ (self : ref) (u : ufunc) (method : string)
    (inputs : list pyval) (kw : kwargs) : M pyval :=
  if negb (String.eqb method "__call__") then py_raise PNotImplemented
  else
    p <~ split_inputs inputs ;;
    let '(inputsx, inputsy, inputsz) := p in
    fx <~ getattr_ufunc u method ;;
    resultx <~ lift (fx inputsx kw) ;;
    fy <~ getattr_ufunc u method ;;
    resulty <~ lift (fy inputsy kw) ;;
    fz <~ getattr_ufunc u method ;;
    resultz <~ lift (fz inputsz kw) ;;
    match resultx, resulty, resultz with
    | PTuple rx, PTuple ry, PTuple rz =>
        out <~ pack_outputs self rx ry rz ;;
        ret (PTuple out)
    | _, _, _ =>
        if String.eqb method "at" then ret PNone
        else
          out <~ empty_like self ;;
          setitem_py out "fX" resultx ;;;
          setitem_py out "fY" resulty ;;;
          setitem_py out "fZ" resultz ;;;
          ret (PRef out)
    end.

(** Modelled from the spec: a binary elementwise primitive such as add or
    multiply.  Called directly it combines two numeric operands with
    broadcasting; its [at] method returns None (the in-place update that
    [at] performs on its first operand is not represented, arrays being
    values here). *)
Definition binary_ufunc (f : F -> F -> F) : ufunc :=
  mkUfunc (fun method =>
    if String.eqb method "__call__" then
      Some (fun inputs _ =>
              match inputs with
              | [PNum a; PNum b] =>
                  match np_binop f a b with
                  | Ok c => Ok (PNum c)
                  | Raise e => Raise e
                  end
              | _ => Raise TypeError
              end)
    else if String.eqb method "at" then Some (fun _ _ => Ok PNone)
    else None).

Definition numpy_add : ufunc := binary_ufunc f_add.
Definition numpy_multiply : ufunc := binary_ufunc f_mul.

(** ** class Methods *)

Definition Methods_cross (self other : ref) : M ref :=
  p <~ _cross self other ;;
  let '(x, y, z) := p in
  c <~ class_of self ;;
  instantiate c x y z.

Definition Methods_rotate_axis (self axis : ref) (angle : ndval) : M ref :=
  p <~ _rotate_axis self axis angle ;;
  let '(x, y, z) := p in
  c <~ class_of self ;;
  instantiate c x y z.

(** The names bound at module level, and the built-in names the module
    refers to.  (The built-in namespace binds no name [x], [y] or [z].) *)
Definition module_globals : list string :=
  ["math"; "awkward"; "uproot_methods"; "Common"; "ArrayMethods"; "Methods";
   "TVector3Array"; "TVector3"].

Definition builtins : list string :=
  ["object"; "property"; "classmethod"; "super"; "isinstance"; "getattr";
   "tuple"; "zip"; "min"; "len"; "repr"; "None"; "NotImplemented"].

Fixpoint assoc (locals : list (string * pyval)) (name : string) : option pyval :=
  match locals with
  | [] => None
  | (n, v) :: rest => if String.eqb n name then Some v else assoc rest name
  end.

(** Reading a name inside a function body: the local scope, then the
    module, then the built-ins; otherwise NameError. *)
Definition load_name (locals : list (string * pyval)) (name : string) : M pyval :=
  match assoc locals name with
  | Some v => ret v
  | None =>
      if existsb (String.eqb name) module_globals then ret (PGlobal name)
      else if existsb (String.eqb name) builtins then ret (PGlobal name)
      else throw (NameError name)
  end.

(** A constructor argument as a coordinate. *)
Definition as_coordinate (v : pyval) : M ndval :=
  match v with
  | PNum a => ret a
  | _ => throw TypeError
  end.

(** The body is the single statement [return self.__class__(x, y, z)]; the
    local scope holds the four parameters. *)
Definition Methods_rotate_euler (self : ref) (phi theta psi : ndval) : M ref :=
  let locals := [("self", PRef self); ("phi", PNum phi);
                 ("theta", PNum theta); ("psi", PNum psi)] in
  c <~ class_of self ;;
  x <~ load_name locals "x" ;;
  y <~ load_name locals "y" ;;
  z <~ load_name locals "z" ;;
  x <~ as_coordinate x ;;
  y <~ as_coordinate y ;;
  z <~ as_coordinate z ;;
  instantiate c x y z.




(** ** class TVector3Array *)

Definition TVector3Array_from_spherical (cls : string) (r theta phi : ndval) : M ref :=
  x <~ r *' np_unop f_sin theta *' np_unop f_cos phi ;;
  y <~ r *' np_unop f_sin theta *' np_unop f_sin phi ;;
  z <~ r *' np_unop f_cos theta ;;
  TVector3Array___init__ cls x y z.

Definition TVector3Array_from_cylindrical (cls : string) (r : pyval)
    (rho phi z : ndval) : M ref :=
  x <~ rho *' np_unop f_cos phi ;;
  y <~ rho *' np_unop f_sin phi ;;
  TVector3Array___init__ cls x y z.

(** ** class TVector3 *)

(** [math.sin], [math.cos]: a number, or an array of one element. *)
Definition math_fn (f : F -> F) (v : ndval) : M ndval :=
  match v with
  | Num r => ret (Num (f r))
  | Arr [r] => ret (Num (f r))
  | Arr _ => throw TypeError
  end.


Definition TVector3_from_cylindrical (cls : string) (rho phi z : ndval) : M ref :=
  x <~ rho *' math_fn f_cos phi ;;
  y <~ rho *' math_fn f_sin phi ;;
  TVector3___init__ cls x y z.

End Model.

Arguments ndval F : clear implicits.
Arguments Table F : clear implicits.
Arguments pyobj F : clear implicits.
Arguments heap F : clear implicits.
Arguments pyval F : clear implicits.
Arguments M F A : clear implicits.
Arguments kwargs F : clear implicits.
Arguments ufunc F : clear implicits.

Declare Scope py_scope.
Notation "x <~ m ;; k" := (bind m (fun x => k))
  (at level 100, m at next level, right associativity) : py_scope.
Notation "m ;;; k" := (bind m (fun _ => k))
  (at level 100, right associativity) : py_scope.
Local Open Scope py_scope.

(** * The vocabulary of the statements *)

Section Vocabulary.

Context {F : Type} {AF : Arith F} {TF : Trig F}.
Implicit Types (h : heap F) (t : Table F) (v : ndval F) (n : nat).

(** A batch of class [c] with [n] rows whose three columns are assigned. *)
Definition filled (c : string) (n : nat) (lx ly lz : list F) : pyobj F :=
  VectorArray c (mkTable n (<["fZ":=lz]> (<["fY":=ly]> (<["fX":=lx]> ∅)))).

(** The three coordinate columns of the batch [r], as read in [h]. *)
Definition columns h (r : ref) (x y z : list F) : Prop :=
  attr_x r h = (Ok (Arr x), h) /\
  attr_y r h = (Ok (Arr y), h) /\
  attr_z r h = (Ok (Arr z), h).

(** A computation that never returns None. *)
Definition never_None (m : M F (pyval F)) : Prop :=
  forall h, fst (m h) <> Ok PNone.





(** The invariant of the columnar store: every stored column covers every
    row. *)
Definition table_wf t : Prop :=
  forall k l, contents t !! k = Some l -> rowcount t <= length l.

Definition obj_wf (o : pyobj F) : Prop :=
  match o with
  | VectorArray _ t => table_wf t
  | Vector _ _ _ _ => True
  end.

Definition heap_wf h : Prop := Forall obj_wf h.

(** [min(len(x), len(y), len(z))] *)
Definition min3 (x y z : list F) : nat :=
  Nat.min (Nat.min (length x) (length y)) (length z).


(** The fused matrix of the Euler rotation, for the cosines and sines of
    the three angles, applied to a triple: the coefficients and the three
    sums as [_rotate_euler] writes them. *)
Definition euler_fused (c1 s1 c2 s2 c3 s3 : F) (v : F * F * F) : F * F * F :=
  let '(x, y, z) := v in
  let fzx2 := f_mul (f_neg s2) c1 in
  let fzy2 := f_mul s2 s1 in
  let fzz2 := c2 in
  let fxx3 := f_sub (f_mul (f_mul c3 c2) c1) (f_mul s3 s1) in
  let fxy3 := f_sub (f_mul (f_mul (f_neg c3) c2) s1) (f_mul s3 c1) in
  let fxz3 := f_mul c3 s2 in
  let fyx3 := f_add (f_mul (f_mul s3 c2) c1) (f_mul c3 s1) in
  let fyy3 := f_add (f_mul (f_mul (f_neg s3) c2) s1) (f_mul c3 c1) in
  let fyz3 := f_mul s3 s2 in
  (f_add (f_add (f_mul fxx3 x) (f_mul fxy3 y)) (f_mul fxz3 z),
   f_add (f_add (f_mul fyx3 x) (f_mul fyy3 y)) (f_mul fyz3 z),
   f_add (f_add (f_mul fzx2 x) (f_mul fzy2 y)) (f_mul fzz2 z)).





End Vocabulary.

Section RealVocabulary.

Local Open Scope R_scope.

(** The three elementary rotations that the kernel fuses. *)
Definition rotZ (a : R) (v : R * R * R) : R * R * R :=
  let '(x, y, z) := v in (cos a * x - sin a * y, sin a * x + cos a * y, z).

Definition rotY (a : R) (v : R * R * R) : R * R * R :=
  let '(x, y, z) := v in (cos a * x + sin a * z, y, - sin a * x + cos a * z).

Definition euler_zyz (phi theta psi : R) (v : R * R * R) : R * R * R :=
  rotZ psi (rotY theta (rotZ phi v)).

Definition as_triple (v : R * R * R) : ndval R * ndval R * ndval R :=
  let '(x, y, z) := v in (Num x, Num y, Num z).

(** Two batches of two rows and a unit axis. *)
Definition two_batches_R : heap R :=
  [filled "TVector3Array" 2 [1; 2] [3; 4] [5; 6];
   filled "Sub" 2 [10; 20] [30; 40] [50; 60];
   Vector "TVector3" (Num 0) (Num 0) (Num 1)].

(** A [unit] for axes that already have magnitude one: a copy. *)
Definition unit_copy (axis : ref) : M R ref :=
  o <~ load axis ;; alloc o.


End RealVocabulary.

Section RenderingVocabulary.

Context {F : Type} {FF : Format F}.


End RenderingVocabulary.

Section FloatVocabulary.

Local Open Scope float_scope.


End FloatVocabulary.

Section RationalVocabulary.

Local Open Scope Q_scope.

Definition one_row : heap Q :=
  [filled "TVector3Array" 1 [1] [2] [3]].

Definition three_vectors : heap Q :=
  [Vector "TVector3" (Num 1) (Num 2) (Num 3);
   Vector "TVector3" (Num (123456 # 100000)) (Num (-2)) (Num (1 # 10000));
   Vector "TVector3" (Num 12345) (Num (1 # 3)) (Num (-1 # 300000))].

Definition two_batches_Q : heap Q :=
  [filled "TVector3Array" 2 [1; 2] [3; 4] [5; 6];
   filled "Sub" 2 [10; 20] [30; 40] [50; 60]].

End RationalVocabulary.

(** * The rest of the module: coordinate assignment and the origin *)

(** The literal [0.0]. *)
Class HasZero (F : Type) := f_zero : F.

#[export] Instance R_Zero : HasZero R := 0%R.
#[export] Instance Q_Zero : HasZero Q := 0%Q.

(** The shape of a number, [()], and of a one-dimensional array, [(n,)]. *)
Inductive shape :=
  | Shape0
  | Shape1 (n : nat).

Section ModelRest.

Context {F : Type} {AF : Arith F} {TF : Trig F} {ZF : HasZero F}.

(** The setters of the properties [x], [y], [z]: [Methods] assigns the
    instance field, [ArrayMethods] assigns the column. *)
Definition set_attr_x (r : ref) (value : ndval F) : M F unit :=
  o <~ load r ;;
  match o with
  | Vector c _ fY fZ => store r (Vector c value fY fZ)
  | VectorArray _ _ => setitem r "fX" value
  end.

Definition set_attr_y (r : ref) (value : ndval F) : M F unit :=
  o <~ load r ;;
  match o with
  | Vector c fX _ fZ => store r (Vector c fX value fZ)
  | VectorArray _ _ => setitem r "fY" value
  end.

Definition set_attr_z (r : ref) (value : ndval F) : M F unit :=
  o <~ load r ;;
  match o with
  | Vector c fX fY _ => store r (Vector c fX fY value)
  | VectorArray _ _ => setitem r "fZ" value
  end.

(** [TVector3.origin] *)
Definition TVector3_origin (cls : string) : M F ref :=
  TVector3___init__ cls (Num f_zero) (Num f_zero) (Num f_zero).

(** Modelled from the spec: the zero-filled allocation of the elementwise
    primitives.  (The element type argument has no counterpart here: the
    element type is [F].) *)
Definition np_zeros (s : shape) : ndval F :=
  match s with
  | Shape0 => Num f_zero
  | Shape1 n => Arr (replicate n f_zero)
  end.

(** [array.shape]: an array has a shape; a plain number has no such
    attribute. *)
Definition np_shape (v : ndval F) : res shape :=
  match v with
  | Num _ => Raise (AttributeError "shape")
  | Arr l => Ok (Shape1 (length l))
  end.

(** [TVector3Array.origin] *)
Definition TVector3Array_origin (cls : string) (s : shape) : M F ref :=
  TVector3Array___init__ cls (np_zeros s) (np_zeros s) (np_zeros s).

(** [TVector3Array.origin_like] *)
Definition TVector3Array_origin_like (cls : string) (array : ndval F) : M F ref :=
  s <~ lift (np_shape array) ;;
  TVector3Array_origin cls s.

(** Modelled from the spec: an elementwise primitive of one operand (such
    as negative), and one with two outputs (such as modf). *)
Definition unary_ufunc (f : F -> F) : ufunc F :=
  mkUfunc (fun method =>
    if String.eqb method "__call__" then
      Some (fun inputs _ =>
              match inputs with
              | [PNum a] => Ok (PNum (np_unop f a))
              | _ => Raise TypeError
              end)
    else None).

Definition two_output_ufunc (f g : F -> F) : ufunc F :=
  mkUfunc (fun method =>
    if String.eqb method "__call__" then
      Some (fun inputs _ =>
              match inputs with
              | [PNum a] => Ok (PTuple [PNum (np_unop f a); PNum (np_unop g a)])
              | _ => Raise TypeError
              end)
    else None).

(** The method [unit] of the vector interface base, as in [_rotate_axis],
    and the call [Methods(x, y, z)]: the class [Methods] defines no
    constructor, so what the call does (store three coordinates, or fail)
    is decided by its base classes, which are not part of this module.
    Both are parameters. *)
Variable TVector_unit : ref -> M F ref.
Variable Methods_call : ndval F -> ndval F -> ndval F -> M F ref.





(** The objects below position [n] are the same in [h'] as in [h]. *)
Definition same_below (n : nat) (h h' : heap F) : Prop :=
  n <= length h' /\ take n h' = take n h.

(** Started in any heap of at least [n] objects, the computation leaves
    the first [n] objects as they are, whatever it returns or raises, and
    a returned value satisfies [post]. *)
Definition keeps_below {A} (n : nat) (m : M F A) (post : A -> Prop) : Prop :=
  forall h, n <= length h ->
    same_below n h (snd (m h)) /\
    forall a, fst (m h) = Ok a -> post a.

End ModelRest.

Section RealGeometry.

Local Open Scope R_scope.

(** The matrix of the axis rotation, for the axis [u] and the cosine [c]
    and sine [s] of the angle, applied to [v]. *)
Definition rodrigues (c s : R) (u v : R * R * R) : R * R * R :=
  let '(ux, uy, uz) := u in
  let '(x, y, z) := v in
  let c1 := 1 - c in
  ((c + ux * ux * c1) * x + (ux * uy * c1 - uz * s) * y + (ux * uz * c1 + uy * s) * z,
   (ux * uy * c1 + uz * s) * x + (c + uy * uy * c1) * y + (uy * uz * c1 - ux * s) * z,
   (ux * uz * c1 - uy * s) * x + (uy * uz * c1 + ux * s) * y + (c + uz * uz * c1) * z).

Definition real_vector (c : string) (v : R * R * R) : pyobj R :=
  let '(x, y, z) := v in Vector c (Num x) (Num y) (Num z).

(** Two scalar vectors, the second of magnitude one. *)
Definition two_vectors_R : heap R :=
  [Vector "TVector3" (Num 1) (Num 2) (Num 3);
   Vector "Sub" (Num 0) (Num 0) (Num 1)].

End RealGeometry.

Section DispatchVocabulary.

Context {F : Type} {AF : Arith F} {TF : Trig F}.
Implicit Types (h : heap F).

(** How the dispatch splits its operands: a batch contributes its three
    columns, anything else is passed as it is to all three positions. *)
Inductive inputs_split h :
    list (pyval F) -> list (pyval F) -> list (pyval F) -> list (pyval F) -> Prop :=
  | split_nil : inputs_split h [] [] [] []
  | split_batch v c t x y z rest xs ys zs :
      h !! v = Some (VectorArray c t) ->
      columns h v x y z ->
      inputs_split h rest xs ys zs ->
      inputs_split h (PRef v :: rest)
        (PNum (Arr x) :: xs) (PNum (Arr y) :: ys) (PNum (Arr z) :: zs)
  | split_other obj rest xs ys zs :
      isinstance_ArrayMethods obj h = (Ok None, h) ->
      inputs_split h rest xs ys zs ->
      inputs_split h (obj :: rest) (obj :: xs) (obj :: ys) (obj :: zs).

(** One new batch per triple of output arrays. *)
Fixpoint filled_all (c : string) (n : nat) (xs ys zs : list (list F))
  : list (pyobj F) :=
  match xs, ys, zs with
  | x :: xs', y :: ys', z :: zs' => filled c n x y z :: filled_all c n xs' ys' zs'
  | _, _, _ => []
  end.

(** A tuple of arrays, as a ufunc with several outputs returns it. *)
Definition tuple_of_arrays (l : list (list F)) : pyval F :=
  PTuple (map (fun a => PNum (Arr a)) l).

(** The computation changes no object that exists when it starts: run in
    any heap, it ends (returning or raising) in that heap extended by new
    objects. *)
Definition only_allocates {A} (m : M F A) : Prop :=
  forall h, exists hnew, snd (m h) = h ++ hnew.

End DispatchVocabulary.

(** * Running computations *)

Section Run.

Context {F : Type} {AF : Arith F} {TF : Trig F}.
Implicit Types (h : heap F) (r : ref) (v : ndval F).

Lemma bind_ok {A B} (m : M F A) (k : A -> M F B) h a h' :
  m h = (Ok a, h') -> bind m k h = k a h'.
Proof. intros E. unfold bind. now rewrite E. Qed.

Lemma bind_raise {A B} (m : M F A) (k : A -> M F B) h e h' :
  m h = (Raise e, h') -> bind m k h = (Raise e, h').
Proof. intros E. unfold bind. now rewrite E. Qed.

Lemma lift2_ok op (p q : M F (ndval F)) h a h1 b h2 :
  p h = (Ok a, h1) -> q h1 = (Ok b, h2) -> lift2 op p q h = (op a b, h2).
Proof.
  intros Ep Eq. unfold lift2.
  rewrite (bind_ok _ _ _ _ _ Ep), (bind_ok _ _ _ _ _ Eq). reflexivity.
Qed.

Lemma lift2_eval op (p q : M F (ndval F)) h a h1 b h2 c :
  p h = (Ok a, h1) -> q h1 = (Ok b, h2) -> op a b = Ok c ->
  lift2 op p q h = (Ok c, h2).
Proof. intros Ep Eq Eo. rewrite (lift2_ok _ _ _ _ _ _ _ _ Ep Eq). now rewrite Eo. Qed.

Lemma lift1_eval op (p : M F (ndval F)) h a h1 :
  p h = (Ok a, h1) -> lift1 op p h = (Ok (op a), h1).
Proof. intros Ep. unfold lift1. now rewrite (bind_ok _ _ _ _ _ Ep). Qed.

Lemma nd_const_eval v h : nd_const v h = (Ok v, h).
Proof. reflexivity. Qed.

Lemma load_ok h r o : h !! r = Some o -> load r h = (Ok o, h).
Proof. intros E. unfold load. now rewrite E. Qed.

Lemma attr_x_Vector h r c x y z :
  h !! r = Some (Vector c x y z) -> attr_x r h = (Ok x, h).
Proof. intros E. unfold attr_x. now rewrite (bind_ok _ _ _ _ _ (load_ok _ _ _ E)). Qed.

Lemma attr_y_Vector h r c x y z :
  h !! r = Some (Vector c x y z) -> attr_y r h = (Ok y, h).
Proof. intros E. unfold attr_y. now rewrite (bind_ok _ _ _ _ _ (load_ok _ _ _ E)). Qed.

Lemma attr_z_Vector h r c x y z :
  h !! r = Some (Vector c x y z) -> attr_z r h = (Ok z, h).
Proof. intros E. unfold attr_z. now rewrite (bind_ok _ _ _ _ _ (load_ok _ _ _ E)). Qed.

Lemma class_of_scalar h r c x y z :
  h !! r = Some (Vector c x y z) -> class_of r h = (Ok (ScalarClass c), h).
Proof. intros E. unfold class_of. now rewrite (bind_ok _ _ _ _ _ (load_ok _ _ _ E)). Qed.

End Run.

Create HintDb run discriminated.
#[export] Hint Resolve attr_x_Vector attr_y_Vector attr_z_Vector nd_const_eval : run.

(** Evaluation of an arithmetic expression over attribute reads. *)
Ltac eval_expr :=
  lazymatch goal with
  | |- lift2 _ _ _ _ = _ => eapply lift2_eval; [eval_expr | eval_expr | try reflexivity]
  | |- lift1 _ _ _ = _ => eapply lift1_eval; eval_expr
  | |- _ => solve [eauto with run]
  end.

Ltac run_binds := repeat (erewrite bind_ok by eval_expr).

(** * The geometry kernel on real triples *)

Section RealTriples.

Local Open Scope R_scope.

Implicit Types (h : heap R) (a b : ref).

Lemma dot_real h a b ca cb ax ay az bx by_ bz :
  h !! a = Some (Vector ca (Num ax) (Num ay) (Num az)) ->
  h !! b = Some (Vector cb (Num bx) (Num by_) (Num bz)) ->
  dot a b h = (Ok (Num (ax * bx + ay * by_ + az * bz)), h).
Proof. intros Ha Hb. unfold dot. run_binds. reflexivity. Qed.

Lemma _cross_real h a b ca cb ax ay az bx by_ bz :
  h !! a = Some (Vector ca (Num ax) (Num ay) (Num az)) ->
  h !! b = Some (Vector cb (Num bx) (Num by_) (Num bz)) ->
  _cross a b h =
    (Ok (Num (ay * bz - az * by_), Num (az * bx - ax * bz), Num (ax * by_ - ay * bx)), h).
Proof. intros Ha Hb. unfold _cross. run_binds. reflexivity. Qed.

(** C7: for all real coordinate triples a and b, dot(a, b) equals
    dot(b, a), and each component of cross(a, b) is the negation of the
    corresponding component of cross(b, a). *)
Theorem dot_commutative_cross_anticommutative h a b ca cb ax ay az bx by_ bz :
  h !! a = Some (Vector ca (Num ax) (Num ay) (Num az)) ->
  h !! b = Some (Vector cb (Num bx) (Num by_) (Num bz)) ->
  (exists d, dot a b h = (Ok (Num d), h) /\ dot b a h = (Ok (Num d), h)) /\
  (exists cx cy cz dx dy dz,
      _cross a b h = (Ok (Num cx, Num cy, Num cz), h) /\
      _cross b a h = (Ok (Num dx, Num dy, Num dz), h) /\
      cx = - dx /\ cy = - dy /\ cz = - dz).
Proof.
  intros Ha Hb. split.
  - exists (ax * bx + ay * by_ + az * bz). split.
    + exact (dot_real _ _ _ _ _ _ _ _ _ _ _ Ha Hb).
    + rewrite (dot_real _ _ _ _ _ _ _ _ _ _ _ Hb Ha).
      do 3 f_equal. ring.
  - do 6 eexists.
    rewrite (_cross_real _ _ _ _ _ _ _ _ _ _ _ Ha Hb).
    rewrite (_cross_real _ _ _ _ _ _ _ _ _ _ _ Hb Ha).
    split; [reflexivity|]. split; [reflexivity|].
    repeat split; ring.
Qed.

Lemma dot_commutative_cross_anticommutative_witness :
  let h : heap R := [Vector "TVector3" (Num 1) (Num 2) (Num 3);
                     Vector "TVector3" (Num 4) (Num 5) (Num 6)] in
  (exists d, dot 0%nat 1%nat h = (Ok (Num d), h) /\
             dot 1%nat 0%nat h = (Ok (Num d), h)) /\
  (exists cx cy cz dx dy dz,
      _cross 0%nat 1%nat h = (Ok (Num cx, Num cy, Num cz), h) /\
      _cross 1%nat 0%nat h = (Ok (Num dx, Num dy, Num dz), h) /\
      cx = - dx /\ cy = - dy /\ cz = - dz).
Proof.
  intros h.
  apply (dot_commutative_cross_anticommutative h 0%nat 1%nat
           "TVector3" "TVector3" 1 2 3 4 5 6); reflexivity.
Defined.

(** C5: the cross product components of two vectors are exactly
    (a.y*b.z - a.z*b.y, a.z*b.x - a.x*b.z, a.x*b.y - a.y*b.x), and the
    scalar [cross] returns a new instance of the receiver's concrete class
    built from those three components; the heap is otherwise unchanged. *)
Theorem cross_components_and_class h a b ca cb ax ay az bx by_ bz :
  h !! a = Some (Vector ca (Num ax) (Num ay) (Num az)) ->
  h !! b = Some (Vector cb (Num bx) (Num by_) (Num bz)) ->
  let cx := ay * bz - az * by_ in
  let cy := az * bx - ax * bz in
  let cz := ax * by_ - ay * bx in
  _cross a b h = (Ok (Num cx, Num cy, Num cz), h) /\
  h !! length h = None /\
  Methods_cross a b h =
    (Ok (length h), h ++ [Vector ca (Num cx) (Num cy) (Num cz)]).
Proof.
  intros Ha Hb cx cy cz. split; [|split].
  - exact (_cross_real _ _ _ _ _ _ _ _ _ _ _ Ha Hb).
  - apply lookup_ge_None_2. lia.
  - unfold Methods_cross.
    rewrite (bind_ok _ _ _ _ _ (_cross_real _ _ _ _ _ _ _ _ _ _ _ Ha Hb)).
    rewrite (bind_ok _ _ _ _ _ (class_of_scalar _ _ _ _ _ _ Ha)).
    reflexivity.
Qed.

Lemma cross_components_and_class_witness :
  let h : heap R := [Vector "TVector3" (Num 1) (Num 2) (Num 3);
                     Vector "Sub" (Num 4) (Num 5) (Num 6)] in
  _cross 1%nat 0%nat h =
    (Ok (Num (5 * 3 - 6 * 2), Num (6 * 1 - 4 * 3), Num (4 * 2 - 5 * 1)), h) /\
  h !! length h = None /\
  Methods_cross 1%nat 0%nat h =
    (Ok 2%nat,
     h ++ [Vector "Sub" (Num (5 * 3 - 6 * 2)) (Num (6 * 1 - 4 * 3))
                        (Num (4 * 2 - 5 * 1))]).
Proof.
  intros h.
  apply (cross_components_and_class h 1%nat 0%nat "Sub" "TVector3"
           4 5 6 1 2 3); reflexivity.
Defined.

End RealTriples.

(** * The scalar Euler rotation *)

Section ScalarEuler.

Context {F : Type} {AF : Arith F} {TF : Trig F}.
Implicit Types (h : heap F) (self : ref).

(** No assignment binds [x] before the return statement reads it. *)
Lemma Methods_rotate_euler_unbound h self c x y z phi theta psi :
  h !! self = Some (Vector c x y z) ->
  Methods_rotate_euler self phi theta psi h = (Raise (NameError "x"), h).
Proof.
  intros E. unfold Methods_rotate_euler.
  rewrite (bind_ok _ _ _ _ _ (class_of_scalar _ _ _ _ _ _ E)).
  reflexivity.
Qed.

End ScalarEuler.

Section RealEuler.

Local Open Scope R_scope.

(** The kernel computes the composition Z(phi), then Y(theta), then Z(psi)
    as one matrix. *)
Lemma _rotate_euler_real (h : heap R) self c x y z phi theta psi :
  h !! self = Some (Vector c (Num x) (Num y) (Num z)) ->
  _rotate_euler self (Num phi) (Num theta) (Num psi) h =
    (Ok (as_triple (euler_zyz phi theta psi (x, y, z))), h).
Proof.
  intros E. unfold _rotate_euler. run_binds.
  cbn. unfold ret. do 2 f_equal.
  repeat (f_equal; try ring).
Qed.

(** C1 (evaluation at the failing input): on the vector (1, 2, 3) the
    kernel [_rotate_euler] yields the fused Z(phi), Y(theta), Z(psi)
    rotation of the coordinates, but the scalar method [rotate_euler]
    raises NameError instead of returning a vector built from them. *)
Theorem scalar_rotate_euler_raises_NameError :
  let h : heap R := [Vector "TVector3" (Num 1) (Num 2) (Num 3)] in
  _rotate_euler 0%nat (Num 0) (Num 0) (Num 0) h =
    (Ok (as_triple (euler_zyz 0 0 0 (1, 2, 3))), h) /\
  Methods_rotate_euler 0%nat (Num 0) (Num 0) (Num 0) h =
    (Raise (NameError "x"), h).
Proof.
  intros h. split.
  - now apply (_rotate_euler_real h 0%nat "TVector3").
  - now apply (Methods_rotate_euler_unbound h 0%nat "TVector3" (Num 1) (Num 2) (Num 3)).
Qed.

End RealEuler.

(** * The elementwise dispatch: invocation modes *)

Section DispatchModes.

Context {F : Type} {AF : Arith F} {TF : Trig F}.
Implicit Types (h : heap F) (self : ref) (u : ufunc F) (method : string).

(** The guard: [NotImplemented] is a constant, not an exception, so the
    raise statement fails with TypeError. *)
Lemma dispatch_guard h self u method inputs kw :
  method <> "__call__" ->
  __array_ufunc__ self u method inputs kw h = (Raise TypeError, h).
Proof.
  intros Hm. unfold __array_ufunc__.
  apply String.eqb_neq in Hm. rewrite Hm. reflexivity.
Qed.

Lemma never_None_bind {A} (m : M F A) (k : A -> M F (pyval F)) :
  (forall a, never_None (k a)) -> never_None (bind m k).
Proof.
  intros Hk h. unfold bind.
  destruct (m h) as [[a|e] h']; [apply Hk | discriminate].
Qed.

Lemma never_None_raise (v : pyval F) : never_None (py_raise v).
Proof. intros h. destruct v; discriminate. Qed.

(** The branch for the mode "at" lies behind the guard, which admits the
    mode "__call__" only: it is never taken. *)
Lemma dispatch_never_None self u method inputs kw :
  never_None (__array_ufunc__ self u method inputs kw).
Proof.
  unfold __array_ufunc__.
  destruct (String.eqb method "__call__") eqn:Hm; cbn [negb].
  - apply String.eqb_eq in Hm. subst method. cbn [String.eqb Ascii.eqb Bool.eqb].
    apply never_None_bind. intros [[ix iy] iz].
    do 6 (apply never_None_bind; intros ?).
    assert (Hs : never_None
      (out <~ empty_like self ;;
       setitem_py out "fX" a0 ;;;
       setitem_py out "fY" a2 ;;;
       setitem_py out "fZ" a4 ;;;
       ret (PRef out))).
    { do 4 (apply never_None_bind; intros ?). intros h. discriminate. }
    assert (Ht : forall rx ry rz, never_None (F:=F)
      (out <~ pack_outputs self rx ry rz ;; ret (PTuple out))).
    { intros. apply never_None_bind. intros ? h. discriminate. }
    destruct a0; try exact Hs; destruct a2; try exact Hs;
      destruct a4; try exact Hs; apply Ht.
  - apply never_None_raise.
Qed.

(** C2: for every invocation mode other than "__call__" the dispatch
    stops at its guard.  The guard executes [raise NotImplemented];
    NotImplemented is not an exception, so what the caller receives is a
    TypeError, neither the NotImplemented value nor a
    NotImplementedError. *)
Theorem dispatch_other_modes_raise_TypeError h self u method inputs kw :
  method <> "__call__" ->
  __array_ufunc__ self u method inputs kw h = (Raise TypeError, h) /\
  __array_ufunc__ self u method inputs kw h <> (Ok PNotImplemented, h) /\
  __array_ufunc__ self u method inputs kw h <> (Raise NotImplementedError, h).
Proof.
  intros Hm. rewrite (dispatch_guard _ _ _ _ _ _ Hm).
  repeat split; discriminate.
Qed.

(** C3 (as amended): the mode "at" is rejected by the guard like every
    other mode that is not "__call__": the dispatch raises, and no
    invocation of it returns None. *)
Theorem dispatch_at_raises_never_None h self u inputs kw :
  (exists e, __array_ufunc__ self u "at" inputs kw h = (Raise e, h)) /\
  (forall method, fst (__array_ufunc__ self u method inputs kw h) <> Ok PNone).
Proof.
  split.
  - exists TypeError. now apply dispatch_guard.
  - intros method. apply dispatch_never_None.
Qed.

End DispatchModes.

Section DispatchModesExamples.

Local Open Scope Q_scope.

Lemma dispatch_other_modes_raise_TypeError_witness :
  __array_ufunc__ 0%nat numpy_add "reduce" [PRef 0%nat] [] one_row
    = (Raise TypeError, one_row) /\
  __array_ufunc__ 0%nat numpy_add "reduce" [PRef 0%nat] [] one_row
    <> (Ok PNotImplemented, one_row) /\
  __array_ufunc__ 0%nat numpy_add "reduce" [PRef 0%nat] [] one_row
    <> (Raise NotImplementedError, one_row).
Proof.
  apply (dispatch_other_modes_raise_TypeError one_row 0%nat numpy_add "reduce").
  discriminate.
Defined.

(** C3 (counterexample): [numpy.add.at(v, [0], 1)] on a one-row batch does
    not return None. *)
Lemma dispatch_at_returns_None_counterexample :
  __array_ufunc__ 0%nat numpy_add "at"
      [PRef 0%nat; PNum (Arr [0]); PNum (Num 1)] [] one_row
    <> (Ok PNone, one_row).
Proof. rewrite dispatch_guard; discriminate. Qed.

End DispatchModesExamples.

(** * Batches: allocation and column assignment *)

Section Batches.

Context {F : Type} {AF : Arith F} {TF : Trig F}.
Implicit Types (h : heap F) (self r : ref) (t : Table F) (l : list F).

Lemma lookup_fresh h (o : pyobj F) : (h ++ [o]) !! length h = Some o.
Proof. rewrite lookup_app_r by lia. now rewrite Nat.sub_diag. Qed.

Lemma insert_fresh h (o o' : pyobj F) : <[length h:=o']> (h ++ [o]) = h ++ [o'].
Proof.
  rewrite insert_app_r_alt by lia. now rewrite Nat.sub_diag.
Qed.

Lemma isinstance_batch h r c t :
  h !! r = Some (VectorArray c t) ->
  isinstance_ArrayMethods (PRef r) h = (Ok (Some r), h).
Proof.
  intros E. unfold isinstance_ArrayMethods.
  now rewrite (bind_ok _ _ _ _ _ (load_ok _ _ _ E)).
Qed.

Lemma empty_like_batch h self c t :
  h !! self = Some (VectorArray c t) ->
  empty_like self h = (Ok (length h), h ++ [VectorArray c (Table_new (rowcount t))]).
Proof.
  intros E. unfold empty_like.
  now rewrite (bind_ok _ _ _ _ _ (load_ok _ _ _ E)).
Qed.

Lemma setitem_batch h self c t k l :
  h !! self = Some (VectorArray c t) ->
  setitem self k (Arr l) h =
    (Ok tt, <[self:=VectorArray c (mkTable (rowcount t) (<[k:=l]> (contents t)))]> h).
Proof.
  intros E. unfold setitem.
  now rewrite (bind_ok _ _ _ _ _ (load_ok _ _ _ E)).
Qed.

Lemma setitem_fresh h c t k l :
  setitem (length h) k (Arr l) (h ++ [VectorArray c t]) =
    (Ok tt, h ++ [VectorArray c (mkTable (rowcount t) (<[k:=l]> (contents t)))]).
Proof.
  rewrite (setitem_batch _ _ _ _ _ _ (lookup_fresh h _)).
  now rewrite insert_fresh.
Qed.

Lemma fill_fresh {A} (a : A) h c n lx ly lz :
  (setitem (length h) "fX" (Arr lx) ;;;
   setitem (length h) "fY" (Arr ly) ;;;
   setitem (length h) "fZ" (Arr lz) ;;;
   ret a) (h ++ [VectorArray c (Table_new n)]) =
  (Ok a, h ++ [filled c n lx ly lz]).
Proof.
  rewrite (bind_ok _ _ _ _ _ (setitem_fresh h c (Table_new n) "fX" lx)).
  rewrite (bind_ok _ _ _ _ _ (setitem_fresh h c (mkTable n _) "fY" ly)).
  rewrite (bind_ok _ _ _ _ _ (setitem_fresh h c (mkTable n _) "fZ" lz)).
  reflexivity.
Qed.

Lemma getitem_batch h r c t k l :
  h !! r = Some (VectorArray c t) -> contents t !! k = Some l ->
  getitem r k h = (Ok (Arr (take (rowcount t) l)), h).
Proof.
  intros E Ek. unfold getitem.
  rewrite (bind_ok _ _ _ _ _ (load_ok _ _ _ E)).
  unfold Table_getitem, lift. now rewrite Ek.
Qed.

Lemma attr_x_batch h r c t l :
  h !! r = Some (VectorArray c t) -> contents t !! "fX" = Some l ->
  attr_x r h = (Ok (Arr (take (rowcount t) l)), h).
Proof.
  intros E Ek. unfold attr_x. rewrite (bind_ok _ _ _ _ _ (load_ok _ _ _ E)).
  now apply (getitem_batch h r c).
Qed.

Lemma attr_y_batch h r c t l :
  h !! r = Some (VectorArray c t) -> contents t !! "fY" = Some l ->
  attr_y r h = (Ok (Arr (take (rowcount t) l)), h).
Proof.
  intros E Ek. unfold attr_y. rewrite (bind_ok _ _ _ _ _ (load_ok _ _ _ E)).
  now apply (getitem_batch h r c).
Qed.

Lemma attr_z_batch h r c t l :
  h !! r = Some (VectorArray c t) -> contents t !! "fZ" = Some l ->
  attr_z r h = (Ok (Arr (take (rowcount t) l)), h).
Proof.
  intros E Ek. unfold attr_z. rewrite (bind_ok _ _ _ _ _ (load_ok _ _ _ E)).
  now apply (getitem_batch h r c).
Qed.

(** Reading back the columns of a filled batch. *)
Lemma filled_columns h c n lx ly lz :
  let h' := h ++ [filled c n lx ly lz] in
  attr_x (length h) h' = (Ok (Arr (take n lx)), h') /\
  attr_y (length h) h' = (Ok (Arr (take n ly)), h') /\
  attr_z (length h) h' = (Ok (Arr (take n lz)), h').
Proof.
  intros h'. pose proof (lookup_fresh h (filled c n lx ly lz)) as E.
  repeat split.
  - now apply (attr_x_batch h' _ c (mkTable n _) lx E).
  - now apply (attr_y_batch h' _ c (mkTable n _) ly E).
  - now apply (attr_z_batch h' _ c (mkTable n _) lz E).
Qed.

Lemma filled_columns_exact h c n lx ly lz :
  length lx = n -> length ly = n -> length lz = n ->
  columns (h ++ [filled c n lx ly lz]) (length h) lx ly lz.
Proof.
  intros Hx Hy Hz. pose proof (filled_columns h c n lx ly lz) as H.
  cbv zeta in H. rewrite !take_ge in H by lia. exact H.
Qed.

(** Reading an object that exists is not affected by later allocations. *)
Lemma load_frame h h2 r o :
  h !! r = Some o -> load r (h ++ h2) = (Ok o, h ++ h2).
Proof. intros E. apply load_ok. now apply lookup_app_l_Some. Qed.

Lemma getitem_frame h h2 r c t k (a : res (ndval F)) :
  h !! r = Some (VectorArray c t) ->
  getitem r k h = (a, h) -> getitem r k (h ++ h2) = (a, h ++ h2).
Proof.
  intros E H. unfold getitem in *.
  rewrite (bind_ok _ _ _ _ _ (load_ok _ _ _ E)) in H.
  rewrite (bind_ok _ _ _ _ _ (load_frame _ h2 _ _ E)).
  unfold lift in *. inversion H. reflexivity.
Qed.

Lemma columns_frame h h2 v c t x y z :
  h !! v = Some (VectorArray c t) ->
  columns h v x y z -> columns (h ++ h2) v x y z.
Proof.
  intros E (Hx & Hy & Hz).
  unfold columns, attr_x, attr_y, attr_z in *.
  rewrite (bind_ok _ _ _ _ _ (load_ok _ _ _ E)) in Hx.
  rewrite (bind_ok _ _ _ _ _ (load_ok _ _ _ E)) in Hy.
  rewrite (bind_ok _ _ _ _ _ (load_ok _ _ _ E)) in Hz.
  rewrite !(bind_ok _ _ _ _ _ (load_frame _ h2 _ _ E)).
  repeat split; eapply getitem_frame; eassumption.
Qed.

Lemma np_binop_arrays f l1 l2 :
  length l1 = length l2 -> np_binop f (Arr l1) (Arr l2) = Ok (Arr (zip_with f l1 l2)).
Proof. intros E. unfold np_binop. now rewrite decide_True. Qed.

End Batches.

(** * The elementwise dispatch: addition and scaling *)

Section DispatchArithmetic.

Context {F : Type} {AF : Arith F} {TF : Trig F}.
Implicit Types (h : heap F) (v : ref) (t : Table F).

Lemma split_inputs_batch h v c t x y z rest xs ys zs :
  h !! v = Some (VectorArray c t) ->
  attr_x v h = (Ok x, h) -> attr_y v h = (Ok y, h) -> attr_z v h = (Ok z, h) ->
  split_inputs rest h = (Ok (xs, ys, zs), h) ->
  split_inputs (PRef v :: rest) h =
    (Ok (PNum x :: xs, PNum y :: ys, PNum z :: zs), h).
Proof.
  intros E Hx Hy Hz Hr. cbn [split_inputs].
  rewrite (bind_ok _ _ _ _ _ (isinstance_batch _ _ _ _ E)).
  rewrite (bind_ok _ _ _ _ _ Hx), (bind_ok _ _ _ _ _ Hy), (bind_ok _ _ _ _ _ Hz).
  now rewrite (bind_ok _ _ _ _ _ Hr).
Qed.

Lemma split_inputs_plain h (a : ndval F) rest xs ys zs :
  split_inputs rest h = (Ok (xs, ys, zs), h) ->
  split_inputs (PNum a :: rest) h =
    (Ok (PNum a :: xs, PNum a :: ys, PNum a :: zs), h).
Proof.
  intros Hr. cbn [split_inputs isinstance_ArrayMethods].
  unfold bind at 1. unfold ret at 1.
  now rewrite (bind_ok _ _ _ _ _ Hr).
Qed.

(** A direct call of a binary primitive whose three per-axis results are
    arrays. *)
Lemma dispatch_binary h v c t f a b ax ay az bx by_ bz lx ly lz :
  h !! v = Some (VectorArray c t) ->
  split_inputs [a; b] h = (Ok ([PNum ax; PNum bx], [PNum ay; PNum by_], [PNum az; PNum bz]), h) ->
  np_binop f ax bx = Ok (Arr lx) ->
  np_binop f ay by_ = Ok (Arr ly) ->
  np_binop f az bz = Ok (Arr lz) ->
  __array_ufunc__ v (binary_ufunc f) "__call__" [a; b] [] h =
    (Ok (PRef (length h)), h ++ [filled c (rowcount t) lx ly lz]).
Proof.
  intros E Hs Hx Hy Hz. unfold __array_ufunc__.
  cbn [String.eqb Ascii.eqb Bool.eqb negb andb].
  rewrite (bind_ok _ _ _ _ _ Hs).
  unfold getattr_ufunc, binary_ufunc.
  cbn [uf_getattr String.eqb Ascii.eqb Bool.eqb negb andb].
  unfold bind at 1. unfold ret at 1.
  unfold bind at 1. unfold lift at 1. rewrite Hx.
  unfold bind at 1. unfold ret at 1.
  unfold bind at 1. unfold lift at 1. rewrite Hy.
  unfold bind at 1. unfold ret at 1.
  unfold bind at 1. unfold lift at 1. rewrite Hz.
  rewrite (bind_ok _ _ _ _ _ (empty_like_batch _ _ _ _ E)).
  cbn [setitem_py].
  now apply fill_fresh.
Qed.

(** C4: for batches of equal length n, adding two batches through the
    dispatch produces a new batch whose columns are the elementwise sums,
    and multiplying a batch by a plain number produces a new batch whose
    three columns are multiplied by that number; the columns of the operand
    batches are as before. *)
Theorem dispatch_add_and_scale h v1 v2 c1 c2 t1 t2 n x1 y1 z1 x2 y2 z2 s :
  h !! v1 = Some (VectorArray c1 t1) ->
  h !! v2 = Some (VectorArray c2 t2) ->
  rowcount t1 = n ->
  columns h v1 x1 y1 z1 ->
  columns h v2 x2 y2 z2 ->
  length x1 = n -> length y1 = n -> length z1 = n ->
  length x2 = n -> length y2 = n -> length z2 = n ->
  let sum := filled c1 n (zip_with f_add x1 x2) (zip_with f_add y1 y2)
                         (zip_with f_add z1 z2) in
  let scaled := filled c1 n (map (fun p => f_mul p s) x1)
                            (map (fun p => f_mul p s) y1)
                            (map (fun p => f_mul p s) z1) in
  h !! length h = None /\
  (__array_ufunc__ v1 numpy_add "__call__" [PRef v1; PRef v2] [] h =
     (Ok (PRef (length h)), h ++ [sum]) /\
   columns (h ++ [sum]) (length h)
     (zip_with f_add x1 x2) (zip_with f_add y1 y2) (zip_with f_add z1 z2) /\
   columns (h ++ [sum]) v1 x1 y1 z1 /\
   columns (h ++ [sum]) v2 x2 y2 z2) /\
  (__array_ufunc__ v1 numpy_multiply "__call__" [PRef v1; PNum (Num s)] [] h =
     (Ok (PRef (length h)), h ++ [scaled]) /\
   columns (h ++ [scaled]) (length h)
     (map (fun p => f_mul p s) x1) (map (fun p => f_mul p s) y1)
     (map (fun p => f_mul p s) z1) /\
   columns (h ++ [scaled]) v1 x1 y1 z1).
Proof.
  intros E1 E2 Hn C1 C2 Lx1 Ly1 Lz1 Lx2 Ly2 Lz2 sum scaled.
  pose proof C1 as (X1 & Y1 & Z1). pose proof C2 as (X2 & Y2 & Z2).
  split; [apply lookup_ge_None_2; lia|]. split.
  - split; [|split; [|split]].
    + subst sum. rewrite <- Hn. unfold numpy_add.
      apply dispatch_binary
        with (ax := Arr x1) (ay := Arr y1) (az := Arr z1)
             (bx := Arr x2) (by_ := Arr y2) (bz := Arr z2); trivial;
        try (apply np_binop_arrays; lia); try (rewrite length_zip_with; lia).
      apply (split_inputs_batch h v1 c1 t1); trivial.
      apply (split_inputs_batch h v2 c2 t2); trivial.
    + apply filled_columns_exact; rewrite length_zip_with; lia.
    + now apply (columns_frame h _ v1 c1 t1).
    + now apply (columns_frame h _ v2 c2 t2).
  - split; [|split].
    + subst scaled. rewrite <- Hn. unfold numpy_multiply.
      apply dispatch_binary
        with (ax := Arr x1) (ay := Arr y1) (az := Arr z1)
             (bx := Num s) (by_ := Num s) (bz := Num s); trivial;
        try (rewrite length_map; lia).
      apply (split_inputs_batch h v1 c1 t1); trivial.
    + apply filled_columns_exact; rewrite length_map; lia.
    + now apply (columns_frame h _ v1 c1 t1).
Qed.

End DispatchArithmetic.

(** * Shapes: numbers and arrays of a given length *)

Section Shapes.

Context {F : Type} {AF : Arith F} {TF : Trig F}.
Implicit Types (h : heap F) (v : ndval F) (n : nat).



















End Shapes.



Section KernelShapes.

Context {F : Type} {AF : Arith F} {TF : Trig F}.
Implicit Types (h : heap F) (self other : ref) (n : nat).




End KernelShapes.

(** * The equal-length invariant of batches *)

Section Invariant.

Context {F : Type} {AF : Arith F} {TF : Trig F}.
Implicit Types (h : heap F) (self other r : ref) (t : Table F) (n : nat).
Local Abbreviation table_wf := (table_wf (F:=F)).

Lemma table_wf_new n : table_wf (Table_new n).
Proof. intros k l. unfold Table_new. simpl. now rewrite lookup_empty. Qed.

(** Assigning a sequence that covers the rows keeps the invariant. *)
Lemma table_wf_setitem t k (l : list F) :
  table_wf t -> rowcount t <= length l ->
  table_wf (mkTable (rowcount t) (<[k:=l]> (contents t))).
Proof.
  intros Ht Hl k' l'. simpl. destruct (decide (k = k')) as [->|Hne].
  - rewrite lookup_insert_eq. now intros [= <-].
  - rewrite lookup_insert_ne by exact Hne. apply Ht.
Qed.

Lemma filled_wf c n (lx ly lz : list F) :
  n <= length lx -> n <= length ly -> n <= length lz -> obj_wf (filled c n lx ly lz).
Proof.
  intros Hx Hy Hz k l. simpl.
  destruct (decide (k = "fZ")) as [->|Nz]; [rewrite lookup_insert_eq; now intros [= <-]|].
  rewrite lookup_insert_ne by congruence.
  destruct (decide (k = "fY")) as [->|Ny]; [rewrite lookup_insert_eq; now intros [= <-]|].
  rewrite lookup_insert_ne by congruence.
  destruct (decide (k = "fX")) as [->|Nx]; [rewrite lookup_insert_eq; now intros [= <-]|].
  rewrite lookup_insert_ne by congruence. now rewrite lookup_empty.
Qed.


Lemma heap_wf_lookup h r o : heap_wf h -> h !! r = Some o -> obj_wf o.
Proof. intros Hh E. exact (Forall_lookup_1 _ _ _ _ Hh E). Qed.

Lemma heap_wf_insert h r o : heap_wf h -> obj_wf o -> heap_wf (<[r:=o]> h).
Proof. intros Hh Ho. now apply Forall_insert. Qed.



Lemma setitem_covering_wf h r c t k (l : list F) :
  heap_wf h -> h !! r = Some (VectorArray c t) -> rowcount t <= length l ->
  heap_wf (snd (setitem r k (Arr l) h)).
Proof.
  intros Hh E Hl. rewrite (setitem_batch _ _ _ _ _ _ E). simpl.
  apply heap_wf_insert; [exact Hh|].
  apply table_wf_setitem; [exact (heap_wf_lookup _ _ _ Hh E) | exact Hl].
Qed.


End Invariant.

(** * Row counts of constructed and computed batches *)

Section RowCounts.

Context {F : Type} {AF : Arith F} {TF : Trig F} {ZF : HasZero F}.
Implicit Types (h : heap F) (self other : ref) (n : nat).

Lemma TVector3Array___init___ok h cls (x y z : list F) :
  TVector3Array___init__ cls (Arr x) (Arr y) (Arr z) h =
    (Ok (length h), h ++ [filled cls (min3 x y z) x y z]).
Proof.
  unfold TVector3Array___init__, min3. simpl py_len.
  unfold bind at 1. unfold lift at 1.
  unfold bind at 1. unfold lift at 1.
  unfold bind at 1. unfold lift at 1.
  unfold bind at 1. unfold alloc at 1.
  apply fill_fresh.
Qed.








End RowCounts.

(** * Construction from spherical and cylindrical coordinates *)

Section Spherical.

Context {F : Type} {AF : Arith F} {TF : Trig F}.
Implicit Types (h : heap F).





End Spherical.

Section SphericalExamples.



End SphericalExamples.

Section Cylindrical.

Context {F : Type} {AF : Arith F} {TF : Trig F}.
Implicit Types (h : heap F).

Lemma TVector3Array_from_cylindrical_ok h cls (r : pyval F) (rho phi z : list F) n :
  length rho = n -> length phi = n -> length z = n ->
  TVector3Array_from_cylindrical cls r (Arr rho) (Arr phi) (Arr z) h =
    (Ok (length h),
     h ++ [filled cls n (zip_with f_mul rho (map f_cos phi))
                        (zip_with f_mul rho (map f_sin phi)) z]).
Proof.
  intros Lr Lp Lz. unfold TVector3Array_from_cylindrical.
  unfold lift2, nd_const. cbn [np_unop].
  unfold bind, ret, lift.
  rewrite !np_binop_arrays by (rewrite length_map; lia).
  rewrite TVector3Array___init___ok. do 3 f_equal.
  unfold min3. rewrite !length_zip_with, !length_map. f_equal. lia.
Qed.

(** C10: the batched [from_cylindrical] takes four arguments
    (r, rho, phi, z), one more than the scalar form's (rho, phi, z), and
    its result does not depend on the first: for any r1 and r2 the two
    constructed batches are the same, with columns
    (rho * cos(phi), rho * sin(phi), z). *)
Theorem from_cylindrical_ignores_first_argument
    h cls (r1 r2 : pyval F) (rho phi z : list F) n (rho0 phi0 z0 : F) :
  length rho = n -> length phi = n -> length z = n ->
  let xs := zip_with f_mul rho (map f_cos phi) in
  let ys := zip_with f_mul rho (map f_sin phi) in
  TVector3Array_from_cylindrical cls r1 (Arr rho) (Arr phi) (Arr z) h =
    TVector3Array_from_cylindrical cls r2 (Arr rho) (Arr phi) (Arr z) h /\
  TVector3Array_from_cylindrical cls r1 (Arr rho) (Arr phi) (Arr z) h =
    (Ok (length h), h ++ [filled cls n xs ys z]) /\
  columns (h ++ [filled cls n xs ys z]) (length h) xs ys z /\
  TVector3_from_cylindrical cls (Num rho0) (Num phi0) (Num z0) h =
    (Ok (length h),
     h ++ [Vector cls (Num (f_mul rho0 (f_cos phi0)))
                      (Num (f_mul rho0 (f_sin phi0))) (Num z0)]).
Proof.
  intros Lr Lp Lz xs ys.
  split; [reflexivity|].
  split; [now apply TVector3Array_from_cylindrical_ok|].
  split; [|reflexivity].
  apply filled_columns_exact; trivial;
    subst xs ys; rewrite length_zip_with, length_map; lia.
Qed.

End Cylindrical.

Section CylindricalExample.

Local Open Scope R_scope.

Lemma from_cylindrical_ignores_first_argument_witness :
  TVector3Array_from_cylindrical (F:=R) "TVector3Array" PNone
      (Arr [1; 2]) (Arr [0; PI]) (Arr [5; 6]) [] =
  TVector3Array_from_cylindrical "TVector3Array" (PNum (Arr [7; 8; 9]))
      (Arr [1; 2]) (Arr [0; PI]) (Arr [5; 6]) [].
Proof.
  exact (proj1 (from_cylindrical_ignores_first_argument (F:=R) []
                  "TVector3Array" PNone (PNum (Arr [7; 8; 9]))
                  [1; 2] [0; PI] [5; 6] 2%nat 1 0 5 eq_refl eq_refl eq_refl)).
Defined.

End CylindricalExample.

(** * Rendering *)

Module DigitsFacts.
Import Format4g Digits.

Lemma digit_char_is_digit d : is_digit_char (digit_char d) = true.
Proof.
  destruct d as [|p|p]; try reflexivity.
  repeat (destruct p as [p|p|]; try reflexivity).
Qed.

Lemma digit_char_not_e d : not_e (digit_char d) = true.
Proof.
  destruct d as [|p|p]; try reflexivity.
  repeat (destruct p as [p|p|]; try reflexivity).
Qed.

Lemma digits4_not_e m : Forall (fun c => not_e c = true) (digits4 m).
Proof. unfold digits4. repeat constructor; apply digit_char_not_e. Qed.

Lemma strip_zeros_take l : exists k, strip_zeros l = take k l.
Proof.
  induction l as [|c l (k & IH)]; [now exists 0%nat|].
  unfold strip_zeros in *. simpl. rewrite IH.
  destruct (take k l) eqn:E.
  - destruct (is_zero_char c); [now exists 0%nat | now exists 1%nat].
  - exists (S k). simpl. now rewrite E.
Qed.

Lemma strip_zeros_length l : (length (strip_zeros l) <= length l)%nat.
Proof.
  destruct (strip_zeros_take l) as (k & ->). rewrite length_take. lia.
Qed.

Lemma strip_zeros_Forall (P : ascii -> Prop) l : Forall P l -> Forall P (strip_zeros l).
Proof.
  intros H. destruct (strip_zeros_take l) as (k & ->). now apply Forall_take.
Qed.

Lemma with_point_not_e int frac :
  Forall (fun c => not_e c = true) int -> Forall (fun c => not_e c = true) frac ->
  Forall (fun c => not_e c = true) (with_point int frac).
Proof.
  intros Hi Hf. unfold with_point.
  pose proof (strip_zeros_Forall _ _ Hf) as Hs.
  destruct (strip_zeros frac); [exact Hi|].
  apply Forall_app. split; [exact Hi|]. now constructor.
Qed.

Lemma take_until_e_all l :
  Forall (fun c => not_e c = true) l -> take_until_e l = l.
Proof. induction 1 as [|c l Hc _ IH]; simpl; [reflexivity|]. now rewrite Hc, IH. Qed.

Lemma take_until_e_app l r :
  Forall (fun c => not_e c = true) l -> take_until_e (l ++ "e"%char :: r) = l.
Proof. induction 1 as [|c l Hc _ IH]; simpl; [reflexivity|]. now rewrite Hc, IH. Qed.

Lemma filter_with_point int frac :
  List.filter is_digit_char (with_point int frac) =
  List.filter is_digit_char int ++ List.filter is_digit_char (strip_zeros frac).
Proof.
  unfold with_point. destruct (strip_zeros frac) as [|c f].
  - simpl. now rewrite app_nil_r.
  - now rewrite List.filter_app.
Qed.

Lemma drop_zeros_length l : (length (drop_zeros l) <= length l)%nat.
Proof.
  induction l as [|c l IH]; simpl; [lia|].
  destruct (is_zero_char c); simpl; lia.
Qed.

Lemma drop_zeros_replicate i l :
  drop_zeros (replicate i "0"%char ++ l) = drop_zeros l.
Proof. induction i; simpl; trivial. Qed.

Lemma filter_replicate_zero i :
  List.filter is_digit_char (replicate i "0"%char) = replicate i "0"%char.
Proof. induction i; simpl; [reflexivity|]. now rewrite IHi. Qed.

(** Digits after dropped zeros: at most as many as the characters. *)
Lemma sig_bound l : (length (drop_zeros (List.filter is_digit_char l)) <= length l)%nat.
Proof.
  pose proof (drop_zeros_length (List.filter is_digit_char l)).
  pose proof (List.filter_length_le is_digit_char l). lia.
Qed.

Lemma sig_chars_with_point int frac :
  (length int + length frac <= 4)%nat ->
  Forall (fun c => not_e c = true) int -> Forall (fun c => not_e c = true) frac ->
  (length (drop_zeros (List.filter is_digit_char (with_point int frac))) <= 4)%nat.
Proof.
  intros Hl Hi Hf. rewrite filter_with_point, <- List.filter_app.
  pose proof (sig_bound (int ++ strip_zeros frac)) as H.
  rewrite length_app in H. pose proof (strip_zeros_length frac). lia.
Qed.

Lemma sig_chars_small j ds :
  length ds = 4%nat -> Forall (fun c => not_e c = true) ds ->
  (sig_chars (with_point ["0"%char] (replicate j "0"%char ++ ds)) <= 4)%nat.
Proof.
  intros Hl Hd. unfold sig_chars.
  rewrite take_until_e_all.
  2:{ apply with_point_not_e; [now repeat constructor|].
      apply Forall_app. split; [|exact Hd]. now apply Forall_replicate. }
  rewrite filter_with_point.
  destruct (strip_zeros_take (replicate j "0"%char ++ ds)) as (k & ->).
  rewrite take_app, take_replicate, List.filter_app, filter_replicate_zero.
  change (List.filter is_digit_char ["0"%char]) with (replicate 1 "0"%char).
  rewrite !drop_zeros_replicate.
  pose proof (sig_bound (take (k - length (replicate j "0"%char)) ds)) as H.
  rewrite length_take in H. lia.
Qed.

Lemma sig_chars_body m e : (sig_chars (body_4g m e) <= 4)%nat.
Proof.
  unfold body_4g.
  pose proof (digits4_not_e m) as Hd.
  assert (Hl : length (digits4 m) = 4%nat) by reflexivity.
  set (ds := digits4 m) in *. clearbody ds. cbv zeta.
  destruct (fixed_range e).
  - destruct (0 <=? e)%Z.
    + unfold sig_chars. rewrite take_until_e_all.
      * apply sig_chars_with_point;
          [rewrite length_take, length_drop; lia
          | now apply Forall_take | now apply Forall_drop].
      * apply with_point_not_e; [now apply Forall_take | now apply Forall_drop].
    + now apply sig_chars_small.
  - unfold sig_chars, exponent_chars. rewrite take_until_e_app.
    + apply sig_chars_with_point;
        [rewrite length_take, length_drop; lia
        | now apply Forall_take | now apply Forall_drop].
    + apply with_point_not_e; [now apply Forall_take | now apply Forall_drop].
Qed.

Lemma sig_chars_layout neg n d : (sig_chars (layout_4g neg n d) <= 4)%nat.
Proof.
  unfold layout_4g. destruct (significand4 n d) as [m e].
  assert (Hneg : forall body, sig_chars ("-"%char :: body) = sig_chars body)
    by reflexivity.
  destruct neg; [rewrite Hneg|]; apply sig_chars_body.
Qed.

(** A number in the [.4g] presentation shows at most four significant
    digits. *)
Lemma format_4g_significant_digits (q : Q) :
  (significant_digits (format_4g q) <= 4)%nat.
Proof.
  unfold significant_digits. simpl. unfold format_4g_Q.
  destruct (Qnum q).
  - vm_compute. lia.
  - rewrite list_ascii_of_string_of_list_ascii. apply sig_chars_layout.
  - rewrite list_ascii_of_string_of_list_ascii. apply sig_chars_layout.
Qed.

End DigitsFacts.

(** ** Rounding to four significant digits *)

Module RoundingFacts.
Import Format4g Numeral.
Local Open Scope Z_scope.















End RoundingFacts.

(** ** The shape of a rendered number *)

Module NumeralFacts.
Import Format4g Digits Numeral DigitsFacts RoundingFacts.
Local Open Scope Z_scope.












Lemma digits4_length m : length (digits4 m) = 4%nat.
Proof. reflexivity. Qed.








End NumeralFacts.

Section Rendering.

Import Digits DigitsFacts Numeral NumeralFacts.





End Rendering.

(** * Instances on concrete heaps *)

Section Instances.

Lemma dispatch_add_and_scale_witness :
  __array_ufunc__ 0%nat numpy_add "__call__" [PRef 0%nat; PRef 1%nat] [] two_batches_Q =
    (Ok (PRef 2%nat),
     two_batches_Q ++
       [filled "TVector3Array" 2 (zip_with Qplus [1; 2] [10; 20])
          (zip_with Qplus [3; 4] [30; 40]) (zip_with Qplus [5; 6] [50; 60])]%Q) /\
  __array_ufunc__ 0%nat numpy_multiply "__call__" [PRef 0%nat; PNum (Num 2%Q)] []
      two_batches_Q =
    (Ok (PRef 2%nat),
     two_batches_Q ++
       [filled "TVector3Array" 2 (map (fun p => Qmult p 2) [1; 2])
          (map (fun p => Qmult p 2) [3; 4]) (map (fun p => Qmult p 2) [5; 6])]%Q).
Proof.
  pose proof (dispatch_add_and_scale two_batches_Q 0%nat 1%nat
                "TVector3Array" "Sub" _ _ 2%nat
                [1; 2]%Q [3; 4]%Q [5; 6]%Q [10; 20]%Q [30; 40]%Q [50; 60]%Q 2%Q
                eq_refl eq_refl eq_refl
                (conj eq_refl (conj eq_refl eq_refl))
                (conj eq_refl (conj eq_refl eq_refl))
                eq_refl eq_refl eq_refl eq_refl eq_refl eq_refl) as H.
  cbv zeta in H.
  exact (conj (proj1 (proj1 (proj2 H))) (proj1 (proj2 (proj2 H)))).
Defined.

Local Open Scope R_scope.

Lemma two_batches_R_wf : heap_wf two_batches_R.
Proof.
  repeat constructor; try (apply filled_wf; simpl; lia).
Qed.



End Instances.

(** * Batches row by row *)

(** Evaluation of an arithmetic expression over the columns of batches. *)
Ltac eval_columns :=
  lazymatch goal with
  | |- lift2 _ _ _ _ = _ =>
      eapply lift2_eval;
      [ eval_columns | eval_columns
      | first [ reflexivity
              | apply np_binop_arrays;
                rewrite ?length_zip_with, ?length_map; lia
              | unfold np_iop; rewrite decide_True
                  by (rewrite ?length_zip_with, ?length_map; lia);
                reflexivity ] ]
  | |- lift1 _ _ _ = _ => eapply lift1_eval; eval_columns
  | |- nd_const _ _ = _ => reflexivity
  | |- _ => eassumption
  end.

Section BatchRows.

Context {F : Type} {AF : Arith F} {TF : Trig F}.
Implicit Types (h : heap F) (self other : ref) (n : nat).

Lemma _cross_columns h self other n x1 y1 z1 x2 y2 z2 :
  columns h self x1 y1 z1 -> columns h other x2 y2 z2 ->
  length x1 = n -> length y1 = n -> length z1 = n ->
  length x2 = n -> length y2 = n -> length z2 = n ->
  _cross self other h =
    (Ok (Arr (zip_with f_sub (zip_with f_mul y1 z2) (zip_with f_mul z1 y2)),
         Arr (zip_with f_sub (zip_with f_mul z1 x2) (zip_with f_mul x1 z2)),
         Arr (zip_with f_sub (zip_with f_mul x1 y2) (zip_with f_mul y1 x2))), h).
Proof.
  intros (X1 & Y1 & Z1) (X2 & Y2 & Z2) Lx1 Ly1 Lz1 Lx2 Ly2 Lz2.
  unfold _cross.
  erewrite bind_ok by eval_columns.
  erewrite bind_ok by eval_columns.
  erewrite bind_ok by eval_columns.
  reflexivity.
Qed.

(** Row [i] of the difference of two columns of products. *)
Lemma cross_row (p q r s : list F) i a b c d :
  p !! i = Some a -> q !! i = Some b -> r !! i = Some c -> s !! i = Some d ->
  zip_with f_sub (zip_with f_mul p q) (zip_with f_mul r s) !! i
    = Some (f_sub (f_mul a b) (f_mul c d)).
Proof.
  intros Hp Hq Hr Hs. apply lookup_zip_with_Some.
  exists (f_mul a b), (f_mul c d). split; [reflexivity|].
  split; apply lookup_zip_with_Some; eauto.
Qed.

(** X1: the batched cross product is the cross product of the rows: the new
    batch has class and row count of the receiver, and its row [i] is the
    cross product of row [i] of the receiver with row [i] of the other
    batch. *)
Theorem ArrayMethods_cross_rows h self other c t n x1 y1 z1 x2 y2 z2 :
  h !! self = Some (VectorArray c t) -> rowcount t = n ->
  columns h self x1 y1 z1 -> columns h other x2 y2 z2 ->
  length x1 = n -> length y1 = n -> length z1 = n ->
  length x2 = n -> length y2 = n -> length z2 = n ->
  exists cx cy cz,
    ArrayMethods_cross self other h = (Ok (length h), h ++ [filled c n cx cy cz]) /\
    columns (h ++ [filled c n cx cy cz]) (length h) cx cy cz /\
    forall i ax ay az bx by_ bz,
      x1 !! i = Some ax -> y1 !! i = Some ay -> z1 !! i = Some az ->
      x2 !! i = Some bx -> y2 !! i = Some by_ -> z2 !! i = Some bz ->
      cx !! i = Some (f_sub (f_mul ay bz) (f_mul az by_)) /\
      cy !! i = Some (f_sub (f_mul az bx) (f_mul ax bz)) /\
      cz !! i = Some (f_sub (f_mul ax by_) (f_mul ay bx)).
Proof.
  intros E Hn C1 C2 Lx1 Ly1 Lz1 Lx2 Ly2 Lz2.
  pose proof (_cross_columns h self other n _ _ _ _ _ _ C1 C2
                Lx1 Ly1 Lz1 Lx2 Ly2 Lz2) as Ek.
  do 3 eexists. split; [|split].
  - unfold ArrayMethods_cross. rewrite (bind_ok _ _ _ _ _ Ek).
    rewrite (bind_ok _ _ _ _ _ (empty_like_batch _ _ _ _ E)).
    rewrite Hn. apply fill_fresh; rewrite !length_zip_with; lia.
  - apply filled_columns_exact; rewrite !length_zip_with; lia.
  - intros i ax ay az bx by_ bz Hax Hay Haz Hbx Hby Hbz.
    repeat split; now apply cross_row.
Qed.

End BatchRows.

Section EulerRows.

Context {F : Type} {AF : Arith F} {TF : Trig F}.
Implicit Types (h : heap F) (self : ref) (n : nat).

(** Row [i] of a column [a * xs + b * ys + c * zs]. *)
Lemma combination_row (a b c : F) (xs ys zs : list F) i x y z :
  xs !! i = Some x -> ys !! i = Some y -> zs !! i = Some z ->
  zip_with f_add (zip_with f_add (map (f_mul a) xs) (map (f_mul b) ys))
           (map (f_mul c) zs) !! i
    = Some (f_add (f_add (f_mul a x) (f_mul b y)) (f_mul c z)).
Proof.
  intros Hx Hy Hz. apply lookup_zip_with_Some. do 2 eexists.
  split; [reflexivity|]. split.
  - apply lookup_zip_with_Some. do 2 eexists. split; [reflexivity|].
    split; apply list_lookup_fmap_Some; eauto.
  - apply list_lookup_fmap_Some; eauto.
Qed.

(** X3: the batched Euler rotation with scalar angles rotates every row: the
    new batch has class and row count of the receiver, and its row [i] is
    the fused matrix of the three angles, with the coefficients as the
    kernel computes them, applied to row [i]. *)
Theorem ArrayMethods_rotate_euler_rows h self c t n xs ys zs (phi theta psi : F) :
  h !! self = Some (VectorArray c t) -> rowcount t = n ->
  columns h self xs ys zs ->
  length xs = n -> length ys = n -> length zs = n ->
  exists xr yr zr,
    ArrayMethods_rotate_euler self (Num phi) (Num theta) (Num psi) h =
      (Ok (length h), h ++ [filled c n xr yr zr]) /\
    columns (h ++ [filled c n xr yr zr]) (length h) xr yr zr /\
    forall i x y z,
      xs !! i = Some x -> ys !! i = Some y -> zs !! i = Some z ->
      exists x' y' z',
        xr !! i = Some x' /\ yr !! i = Some y' /\ zr !! i = Some z' /\
        (x', y', z') =
          euler_fused (f_cos phi) (f_sin phi) (f_cos theta) (f_sin theta)
                      (f_cos psi) (f_sin psi) (x, y, z).
Proof.
  intros E Hn (X1 & Y1 & Z1) Lx Ly Lz.
  do 3 eexists. split; [|split].
  - unfold ArrayMethods_rotate_euler, _rotate_euler. cbv zeta.
    erewrite (bind_ok (bind _ _)).
    2:{ do 11 (erewrite bind_ok by eval_columns). reflexivity. }
    cbv beta iota.
    rewrite (bind_ok _ _ _ _ _ (empty_like_batch _ _ _ _ E)).
    rewrite Hn. apply fill_fresh.
  - apply filled_columns_exact; rewrite !length_zip_with, !length_map; lia.
  - intros i x y z Hx Hy Hz. do 3 eexists.
    split; [eapply combination_row; eassumption|].
    split; [eapply combination_row; eassumption|].
    split; [eapply combination_row; eassumption|].
    reflexivity.
Qed.

End EulerRows.

(** * Rotations of real triples *)

Section RealRotations.

Local Open Scope R_scope.
Implicit Types (h : heap R) (self axis u : ref).

Lemma _rotate_axis_real (unit_ : ref -> M R ref) h h1 self axis a u c cu
    x y z ux uy uz :
  unit_ axis h = (Ok u, h1) ->
  h1 !! u = Some (Vector cu (Num ux) (Num uy) (Num uz)) ->
  h1 !! self = Some (Vector c (Num x) (Num y) (Num z)) ->
  _rotate_axis unit_ self axis (Num a) h =
    (Ok (as_triple (rodrigues (cos a) (sin a) (ux, uy, uz) (x, y, z))), h1).
Proof.
  intros Eu Hu Hs. unfold _rotate_axis, pow2. cbv zeta.
  rewrite (bind_ok _ _ _ _ _ Eu).
  run_binds. reflexivity.
Qed.

Lemma Methods_rotate_axis_real (unit_ : ref -> M R ref) h h1 self axis a u c cu
    x y z ux uy uz :
  unit_ axis h = (Ok u, h1) ->
  h1 !! u = Some (Vector cu (Num ux) (Num uy) (Num uz)) ->
  h1 !! self = Some (Vector c (Num x) (Num y) (Num z)) ->
  Methods_rotate_axis unit_ self axis (Num a) h =
    (Ok (length h1),
     h1 ++ [real_vector c (rodrigues (cos a) (sin a) (ux, uy, uz) (x, y, z))]).
Proof.
  intros Eu Hu Hs. unfold Methods_rotate_axis.
  rewrite (bind_ok _ _ _ _ _ (_rotate_axis_real _ _ _ _ _ _ _ _ _ _ _ _ _ _ _ Eu Hu Hs)).
  cbn [as_triple rodrigues].
  rewrite (bind_ok _ _ _ _ _ (class_of_scalar _ _ _ _ _ _ Hs)).
  reflexivity.
Qed.

Lemma rodrigues_identity (w v : R * R * R) : rodrigues 1 0 w v = v.
Proof.
  destruct w as [[ux uy] uz], v as [[x y] z]. unfold rodrigues.
  apply (f_equal2 pair); [apply (f_equal2 pair)|]; ring.
Qed.

(** X5: rotating a scalar vector about any axis by the angle 0 returns a new
    vector of the receiver's class with the same coordinates. *)
Theorem rotate_axis_zero_angle (unit_ : ref -> M R ref) h h1 self axis u c cu
    x y z ux uy uz :
  unit_ axis h = (Ok u, h1) ->
  h1 !! u = Some (Vector cu (Num ux) (Num uy) (Num uz)) ->
  h1 !! self = Some (Vector c (Num x) (Num y) (Num z)) ->
  Methods_rotate_axis unit_ self axis (Num 0) h =
    (Ok (length h1), h1 ++ [Vector c (Num x) (Num y) (Num z)]).
Proof.
  intros Eu Hu Hs.
  rewrite (Methods_rotate_axis_real _ _ _ _ _ _ _ _ _ _ _ _ _ _ _ Eu Hu Hs).
  now rewrite cos_0, sin_0, rodrigues_identity.
Qed.

End RealRotations.

(** * The elementwise dispatch for any primitive *)

Section DispatchGeneral.

Context {F : Type} {AF : Arith F} {TF : Trig F}.
Implicit Types (h : heap F) (v : ref) (u : ufunc F).

Lemma split_inputs_spec h inputs ix iy iz :
  inputs_split h inputs ix iy iz ->
  split_inputs inputs h = (Ok (ix, iy, iz), h).
Proof.
  induction 1 as [|v c t x y z rest xs ys zs E (Hx & Hy & Hz) _ IH
                  |obj rest xs ys zs Ho _ IH].
  - reflexivity.
  - now apply (split_inputs_batch h v c t).
  - cbn [split_inputs]. rewrite (bind_ok _ _ _ _ _ Ho).
    now rewrite (bind_ok _ _ _ _ _ IH).
Qed.

Lemma getattr_ufunc_ok h u method call :
  uf_getattr u method = Some call -> getattr_ufunc u method h = (Ok call, h).
Proof. intros E. unfold getattr_ufunc. now rewrite E. Qed.

(** X12: the dispatch applies the primitive once per coordinate: for any
    primitive called without keyword arguments and any mix of batches and
    other operands, if the direct call on the x, on the y and on the z
    operands returns three arrays that cover the rows of the receiver, the
    result is a new batch of the receiver's class and row count with these
    three columns. *)
Theorem dispatch_per_coordinate h v c t u call inputs ix iy iz rx ry rz :
  h !! v = Some (VectorArray c t) ->
  uf_getattr u "__call__" = Some call ->
  inputs_split h inputs ix iy iz ->
  call ix [] = Ok (PNum (Arr rx)) ->
  call iy [] = Ok (PNum (Arr ry)) ->
  call iz [] = Ok (PNum (Arr rz)) ->
  rowcount t <= length rx -> rowcount t <= length ry -> rowcount t <= length rz ->
  __array_ufunc__ v u "__call__" inputs [] h =
    (Ok (PRef (length h)), h ++ [filled c (rowcount t) rx ry rz]) /\
  columns (h ++ [filled c (rowcount t) rx ry rz]) (length h)
    (take (rowcount t) rx) (take (rowcount t) ry) (take (rowcount t) rz).
Proof.
  intros E Hu Hs Hx Hy Hz Lx Ly Lz. split; [|apply filled_columns].
  unfold __array_ufunc__.
  cbn [String.eqb Ascii.eqb Bool.eqb negb andb].
  rewrite (bind_ok _ _ _ _ _ (split_inputs_spec _ _ _ _ _ Hs)).
  rewrite (bind_ok _ _ _ _ _ (getattr_ufunc_ok _ _ _ _ Hu)).
  unfold bind at 1. unfold lift at 1. rewrite Hx.
  rewrite (bind_ok _ _ _ _ _ (getattr_ufunc_ok _ _ _ _ Hu)).
  unfold bind at 1. unfold lift at 1. rewrite Hy.
  rewrite (bind_ok _ _ _ _ _ (getattr_ufunc_ok _ _ _ _ Hu)).
  unfold bind at 1. unfold lift at 1. rewrite Hz.
  rewrite (bind_ok _ _ _ _ _ (empty_like_batch _ _ _ _ E)).
  cbn [setitem_py].
  apply fill_fresh.
Qed.

Lemma pack_outputs_ok h v c t (txs tys tzs : list (list F)) :
  h !! v = Some (VectorArray c t) ->
  Forall (fun a => rowcount t <= length a) txs ->
  Forall (fun a => rowcount t <= length a) tys ->
  Forall (fun a => rowcount t <= length a) tzs ->
  length tys = length txs -> length tzs = length txs ->
  pack_outputs v (map (fun a => PNum (Arr a)) txs) (map (fun a => PNum (Arr a)) tys)
               (map (fun a => PNum (Arr a)) tzs) h =
    (Ok (map PRef (seq (length h) (length txs))),
     h ++ filled_all c (rowcount t) txs tys tzs).
Proof.
  intros E Hx. revert h E tys tzs.
  induction Hx as [|x txs Lx _ IH]; intros h E tys tzs Hy Hz Ly Lz.
  - simpl. unfold ret. now rewrite app_nil_r.
  - destruct tys as [|y tys]; [discriminate|].
    destruct tzs as [|z tzs]; [discriminate|].
    inversion Hy as [|? ? Ly1 Hy']; subst. inversion Hz as [|? ? Lz1 Hz']; subst.
    cbn [map pack_outputs].
    rewrite (bind_ok _ _ _ _ _ (empty_like_batch _ _ _ _ E)).
    cbn [setitem_py].
    rewrite (bind_ok _ _ _ _ _ (setitem_fresh h c (Table_new (rowcount t)) "fX" x)).
    rewrite (bind_ok _ _ _ _ _ (setitem_fresh h c (mkTable (rowcount t) _) "fY" y)).
    rewrite (bind_ok _ _ _ _ _ (setitem_fresh h c (mkTable (rowcount t) _) "fZ" z)).
    cbn [rowcount].
    erewrite bind_ok.
    2:{ apply (IH (h ++ [filled c (rowcount t) x y z])); trivial.
        - now apply lookup_app_l_Some.
        - simpl in Ly. lia.
        - simpl in Lz. lia. }
    unfold ret. cbn [length seq map filled_all].
    rewrite length_app. cbn [length]. rewrite Nat.add_1_r.
    now rewrite <- app_assoc.
Qed.

(** X13: a primitive with several outputs, called without keyword
    arguments: when each of the three calls returns a tuple of k arrays,
    the dispatch returns a tuple of k new batches, the j-th holding the
    j-th output of each call as its columns. *)
Theorem dispatch_tuple_outputs h v c t u call inputs ix iy iz txs tys tzs :
  h !! v = Some (VectorArray c t) ->
  uf_getattr u "__call__" = Some call ->
  inputs_split h inputs ix iy iz ->
  call ix [] = Ok (tuple_of_arrays txs) ->
  call iy [] = Ok (tuple_of_arrays tys) ->
  call iz [] = Ok (tuple_of_arrays tzs) ->
  Forall (fun a => rowcount t <= length a) txs ->
  Forall (fun a => rowcount t <= length a) tys ->
  Forall (fun a => rowcount t <= length a) tzs ->
  length tys = length txs -> length tzs = length txs ->
  __array_ufunc__ v u "__call__" inputs [] h =
    (Ok (PTuple (map PRef (seq (length h) (length txs)))),
     h ++ filled_all c (rowcount t) txs tys tzs).
Proof.
  intros E Hu Hs Hx Hy Hz Fx Fy Fz Ly Lz.
  unfold __array_ufunc__.
  cbn [String.eqb Ascii.eqb Bool.eqb negb andb].
  rewrite (bind_ok _ _ _ _ _ (split_inputs_spec _ _ _ _ _ Hs)).
  rewrite (bind_ok _ _ _ _ _ (getattr_ufunc_ok _ _ _ _ Hu)).
  unfold bind at 1. unfold lift at 1. rewrite Hx.
  rewrite (bind_ok _ _ _ _ _ (getattr_ufunc_ok _ _ _ _ Hu)).
  unfold bind at 1. unfold lift at 1. rewrite Hy.
  rewrite (bind_ok _ _ _ _ _ (getattr_ufunc_ok _ _ _ _ Hu)).
  unfold bind at 1. unfold lift at 1. rewrite Hz.
  unfold tuple_of_arrays.
  now rewrite (bind_ok _ _ _ _ _ (pack_outputs_ok h v c t txs tys tzs E Fx Fy Fz Ly Lz)).
Qed.

End DispatchGeneral.

(** * Operations allocate and never modify *)

Section OnlyAllocates.

Context {F : Type} {AF : Arith F} {TF : Trig F}.
Implicit Types (h : heap F) (r self other : ref) (n : nat).

Local Abbreviation keeps_below := (keeps_below (F:=F)).
Local Abbreviation anything := (fun _ => True).

Lemma same_below_refl n h : n <= length h -> same_below n h h.
Proof. intros Hn. now split. Qed.

Lemma same_below_trans n h1 h2 h3 :
  same_below n h1 h2 -> same_below n h2 h3 -> same_below n h1 h3.
Proof. intros [L1 E1] [L2 E2]. split; [exact L2 | congruence]. Qed.

Lemma kb_ret {A} n (a : A) (post : A -> Prop) : post a -> keeps_below n (ret a) post.
Proof.
  intros Pa h Hn. split; [now apply same_below_refl|].
  simpl. now intros ? [= <-].
Qed.

Lemma kb_throw {A} n e (post : A -> Prop) : keeps_below n (throw e) post.
Proof. intros h Hn. split; [now apply same_below_refl | discriminate]. Qed.

Lemma kb_lift {A} n (x : res A) : keeps_below n (lift x) anything.
Proof. intros h Hn. split; [now apply same_below_refl | trivial]. Qed.

Lemma kb_raise {A} n v (post : A -> Prop) : keeps_below n (py_raise v) post.
Proof. destruct v; apply kb_throw. Qed.

Lemma kb_weaken {A} n (m : M F A) (P : A -> Prop) :
  keeps_below n m P -> keeps_below n m anything.
Proof. intros H h Hn. split; [apply (H h Hn) | trivial]. Qed.

Lemma kb_bind {A B} n (m : M F A) (k : A -> M F B) (P : A -> Prop) (Q : B -> Prop) :
  keeps_below n m P -> (forall a, P a -> keeps_below n (k a) Q) ->
  keeps_below n (bind m k) Q.
Proof.
  intros Hm Hk h Hn. destruct (Hm h Hn) as [S1 P1]. unfold bind.
  destruct (m h) as [[a|e] h1]; simpl in *.
  - destruct (Hk a (P1 a eq_refl) h1 (proj1 S1)) as [S2 Q2].
    split; [exact (same_below_trans _ _ _ _ S1 S2) | exact Q2].
  - split; [exact S1 | discriminate].
Qed.

Lemma kb_load n r : keeps_below n (load r) anything.
Proof.
  intros h Hn. unfold load.
  destruct (_ !! _); simpl; (split; [now apply same_below_refl | trivial]).
Qed.

Lemma kb_alloc n o : keeps_below n (alloc o) (fun r => n <= r).
Proof.
  intros h Hn. unfold alloc. simpl. split.
  - split; [rewrite length_app; lia | now apply take_app_le].
  - now intros ? [= <-].
Qed.

Lemma kb_store n r o : n <= r -> keeps_below n (store r o) anything.
Proof.
  intros Hr h Hn. unfold store, same_below. simpl. split; [|trivial].
  split; [|now apply take_insert_ge].
  apply (Nat.le_trans _ _ _ Hn), Nat.eq_le_incl. symmetry. apply length_insert.
Qed.

Lemma kb_setitem n r k v : n <= r -> keeps_below n (setitem r k v) anything.
Proof.
  intros Hr. unfold setitem.
  apply (kb_bind _ _ _ anything); [apply kb_load | intros [|c t] _].
  - apply kb_throw.
  - apply (kb_bind _ _ _ anything); [apply kb_lift | intros t' _].
    now apply kb_store.
Qed.

Lemma kb_setitem_py n r k v : n <= r -> keeps_below n (setitem_py r k v) anything.
Proof. intros Hr. destruct v; try apply kb_throw. now apply kb_setitem. Qed.

Lemma kb_getitem n r k : keeps_below n (getitem r k) anything.
Proof.
  unfold getitem. apply (kb_bind _ _ _ anything); [apply kb_load | intros [|] _].
  - apply kb_throw.
  - apply kb_lift.
Qed.

Lemma kb_attr_x n r : keeps_below n (attr_x r) anything.
Proof.
  unfold attr_x. apply (kb_bind _ _ _ anything); [apply kb_load | intros [|] _].
  - now apply kb_ret.
  - apply kb_getitem.
Qed.

Lemma kb_attr_y n r : keeps_below n (attr_y r) anything.
Proof.
  unfold attr_y. apply (kb_bind _ _ _ anything); [apply kb_load | intros [|] _].
  - now apply kb_ret.
  - apply kb_getitem.
Qed.

Lemma kb_attr_z n r : keeps_below n (attr_z r) anything.
Proof.
  unfold attr_z. apply (kb_bind _ _ _ anything); [apply kb_load | intros [|] _].
  - now apply kb_ret.
  - apply kb_getitem.
Qed.

Lemma kb_const n (v : ndval F) : keeps_below n (nd_const v) anything.
Proof. now apply kb_ret. Qed.

Lemma kb_lift2 n op (p q : M F (ndval F)) :
  keeps_below n p anything -> keeps_below n q anything ->
  keeps_below n (lift2 op p q) anything.
Proof.
  intros Hp Hq. unfold lift2.
  apply (kb_bind _ _ _ anything); [exact Hp | intros a _].
  apply (kb_bind _ _ _ anything); [exact Hq | intros b _].
  apply kb_lift.
Qed.

Lemma kb_lift1 n op (p : M F (ndval F)) :
  keeps_below n p anything -> keeps_below n (lift1 op p) anything.
Proof.
  intros Hp. unfold lift1.
  apply (kb_bind _ _ _ anything); [exact Hp | intros a _]. now apply kb_ret.
Qed.

Lemma kb_class_of n r : keeps_below n (class_of r) anything.
Proof.
  unfold class_of. apply (kb_bind _ _ _ anything); [apply kb_load | intros [|] _];
    now apply kb_ret.
Qed.

Lemma kb_empty_like n r : keeps_below n (empty_like r) (fun out => n <= out).
Proof.
  unfold empty_like. apply (kb_bind _ _ _ anything); [apply kb_load | intros [|c t] _].
  - apply kb_throw.
  - apply kb_alloc.
Qed.

(** Allocation like the receiver and assignment of three columns. *)
Lemma kb_assemble {A} n self (x y z : pyval F) (a : ref -> A) :
  keeps_below n
    (out <~ empty_like self ;;
     setitem_py out "fX" x ;;;
     setitem_py out "fY" y ;;;
     setitem_py out "fZ" z ;;;
     ret (a out)) anything.
Proof.
  apply (kb_bind _ _ _ (fun out => n <= out)); [apply kb_empty_like | intros out Ho].
  do 3 (apply (kb_bind _ _ _ anything); [now apply kb_setitem_py | intros _ _]).
  now apply kb_ret.
Qed.

End OnlyAllocates.

Create HintDb kb discriminated.
#[export] Hint Resolve kb_throw kb_lift kb_raise kb_load kb_getitem
  kb_attr_x kb_attr_y kb_attr_z kb_const kb_lift2 kb_lift1 kb_class_of : kb.

(** Descends through the binds of a computation that only reads. *)
Ltac kb_reads :=
  repeat first
    [ solve [auto with kb]
    | apply kb_ret; exact I
    | apply (kb_bind _ _ _ (fun _ => True)); [| intros ? _] ].

Section OnlyAllocatesMethods.

Context {F : Type} {AF : Arith F} {TF : Trig F}.
Implicit Types (h : heap F) (r self other : ref) (n : nat).

Local Abbreviation keeps_below := (keeps_below (F:=F)).
Local Abbreviation anything := (fun _ => True).

Lemma kb__cross n self other : keeps_below n (_cross self other) anything.
Proof. unfold _cross. kb_reads. Qed.

Lemma kb_dot n self other : keeps_below n (dot self other) anything.
Proof. unfold dot. kb_reads. Qed.

Lemma kb__rotate_euler n self (phi theta psi : ndval F) :
  keeps_below n (_rotate_euler self phi theta psi) anything.
Proof. unfold _rotate_euler. cbv zeta. kb_reads. Qed.

Lemma kb_TVector3Array___init__ n cls (x y z : ndval F) :
  keeps_below n (TVector3Array___init__ cls x y z) anything.
Proof.
  unfold TVector3Array___init__.
  do 3 (apply (kb_bind _ _ _ anything); [apply kb_lift | intros ? _]).
  apply (kb_bind _ _ _ (fun out => n <= out)); [apply kb_alloc | intros out Ho].
  do 3 (apply (kb_bind _ _ _ anything); [now apply kb_setitem | intros _ _]).
  now apply kb_ret.
Qed.

Lemma kb_instantiate n c (x y z : ndval F) :
  keeps_below n (instantiate c x y z) anything.
Proof.
  destruct c; simpl.
  - unfold TVector3___init__. exact (kb_weaken _ _ _ (kb_alloc n _)).
  - apply kb_TVector3Array___init__.
Qed.

Lemma kb_assemble_kernel n self (kernel : M F (ndval F * ndval F * ndval F)) :
  keeps_below n kernel anything ->
  keeps_below n
    (p <~ kernel ;;
     let '(x, y, z) := p in
     out <~ empty_like self ;;
     setitem out "fX" x ;;;
     setitem out "fY" y ;;;
     setitem out "fZ" z ;;;
     ret out) anything.
Proof.
  intros Hk. apply (kb_bind _ _ _ anything); [exact Hk | intros [[x y] z] _].
  exact (kb_assemble n self (PNum x) (PNum y) (PNum z) (fun out => out)).
Qed.

Lemma kb_isinstance n (obj : pyval F) :
  keeps_below n (isinstance_ArrayMethods obj) anything.
Proof.
  destruct obj; simpl; try (now apply kb_ret).
  apply (kb_bind _ _ _ anything); [apply kb_load | intros [|] _]; now apply kb_ret.
Qed.

Lemma kb_split_inputs n (inputs : list (pyval F)) :
  keeps_below n (split_inputs inputs) anything.
Proof.
  induction inputs as [|obj rest IH]; simpl; [now apply kb_ret|].
  apply (kb_bind _ _ _ anything); [apply kb_isinstance | intros [r|] _].
  - do 3 (apply (kb_bind _ _ _ anything); [auto with kb | intros ? _]).
    apply (kb_bind _ _ _ anything); [exact IH | intros [[xs ys] zs] _].
    now apply kb_ret.
  - apply (kb_bind _ _ _ anything); [exact IH | intros [[xs ys] zs] _].
    now apply kb_ret.
Qed.

Lemma kb_pack_outputs n self (rx ry rz : list (pyval F)) :
  keeps_below n (pack_outputs self rx ry rz) anything.
Proof.
  revert ry rz. induction rx as [|x rx IH]; intros ry rz; simpl; [now apply kb_ret|].
  destruct ry as [|y ry]; [now apply kb_ret|].
  destruct rz as [|z rz]; [now apply kb_ret|].
  apply (kb_bind _ _ _ (fun out => n <= out)); [apply kb_empty_like | intros out Ho].
  do 3 (apply (kb_bind _ _ _ anything); [now apply kb_setitem_py | intros _ _]).
  apply (kb_bind _ _ _ anything); [apply IH | intros ? _]. now apply kb_ret.
Qed.

Lemma kb_getattr_ufunc n (u : ufunc F) method :
  keeps_below n (getattr_ufunc u method) anything.
Proof.
  unfold getattr_ufunc. destruct (uf_getattr u method);
    [now apply kb_ret | apply kb_throw].
Qed.

Lemma kb___array_ufunc__ n self (u : ufunc F) method inputs kw :
  keeps_below n (__array_ufunc__ self u method inputs kw) anything.
Proof.
  unfold __array_ufunc__.
  destruct (negb (String.eqb method "__call__")); [apply kb_raise|].
  apply (kb_bind _ _ _ anything); [apply kb_split_inputs | intros [[ix iy] iz] _].
  do 3 (apply (kb_bind _ _ _ anything); [apply kb_getattr_ufunc | intros ? _];
        apply (kb_bind _ _ _ anything); [apply kb_lift | intros ? _]).
  assert (Hs : forall x y z : pyval F, keeps_below n
    (out <~ empty_like self ;;
     setitem_py out "fX" x ;;;
     setitem_py out "fY" y ;;;
     setitem_py out "fZ" z ;;;
     ret (PRef (F:=F) out)) anything)
    by (intros; apply (kb_assemble n self _ _ _ PRef)).
  assert (Ht : forall rx ry rz : list (pyval F), keeps_below n
    (out <~ pack_outputs self rx ry rz ;; ret (PTuple (F:=F) out)) anything).
  { intros. apply (kb_bind _ _ _ anything); [apply kb_pack_outputs | intros ? _].
    now apply kb_ret. }
  destruct (String.eqb method "at");
    destruct a0; try apply Hs; try (now apply kb_ret);
    destruct a2; try apply Hs; try (now apply kb_ret);
    destruct a4; try apply Hs; try (now apply kb_ret); apply Ht.
Qed.

Lemma keeps_below_only_allocates {A} (m : M F A) :
  (forall n, keeps_below n m anything) -> only_allocates m.
Proof.
  intros H h. destruct (H (length h) h (le_n _)) as [[L E] _].
  exists (drop (length h) (snd (m h))).
  rewrite <- (take_drop (length h) (snd (m h))) at 1.
  f_equal. rewrite E. now apply take_ge.
Qed.

(** X14: the geometric operations, the constructors and the elementwise
    dispatch change no object that exists when they are called: for every
    heap and all arguments, whether the call returns or raises, the heap
    at the end is the heap at the start extended by new objects. *)
Theorem operations_only_allocate :
  (forall self other, only_allocates (dot (F:=F) self other)) /\
  (forall self other, only_allocates (ArrayMethods_cross (F:=F) self other)) /\
  (forall self other, only_allocates (Methods_cross (F:=F) self other)) /\
  (forall self phi theta psi,
      only_allocates (ArrayMethods_rotate_euler (F:=F) self phi theta psi)) /\
  (forall cls x y z, only_allocates (TVector3Array___init__ (F:=F) cls x y z)) /\
  (forall self u method inputs kw,
      only_allocates (__array_ufunc__ (F:=F) self u method inputs kw)).
Proof.
  repeat split; intros; apply keeps_below_only_allocates; intros n.
  - apply kb_dot.
  - apply kb_assemble_kernel, kb__cross.
  - unfold Methods_cross.
    apply (kb_bind _ _ _ anything); [apply kb__cross | intros [[x y] z] _].
    apply (kb_bind _ _ _ anything); [apply kb_class_of | intros c _].
    apply kb_instantiate.
  - apply kb_assemble_kernel, kb__rotate_euler.
  - apply kb_TVector3Array___init__.
  - apply kb___array_ufunc__.
Qed.

End OnlyAllocatesMethods.

(** * Coordinate assignment *)

Section Setters.

Context {F : Type} {AF : Arith F} {TF : Trig F}.
Implicit Types (h : heap F) (self r : ref) (n : nat).

Lemma lookup_insert_heap h self (o o' : pyobj F) :
  h !! self = Some o -> <[self:=o']> h !! self = Some o'.
Proof. intros E. apply list_lookup_insert_eq. now apply lookup_lt_Some in E. Qed.

(** X15: assigning a coordinate of a scalar vector changes that coordinate of
    that object and nothing else: the assigned value is read back, the
    other two coordinates and the class are as before, and every other
    object is untouched. *)
Theorem scalar_setters_round_trip h self c x y z (v : ndval F) :
  h !! self = Some (Vector c x y z) ->
  let hx := <[self:=Vector c v y z]> h in
  let hy := <[self:=Vector c x v z]> h in
  let hz := <[self:=Vector c x y v]> h in
  (set_attr_x self v h = (Ok tt, hx) /\
   attr_x self hx = (Ok v, hx) /\ attr_y self hx = (Ok y, hx) /\
   attr_z self hx = (Ok z, hx) /\ class_of self hx = (Ok (ScalarClass c), hx)) /\
  (set_attr_y self v h = (Ok tt, hy) /\
   attr_x self hy = (Ok x, hy) /\ attr_y self hy = (Ok v, hy) /\
   attr_z self hy = (Ok z, hy)) /\
  (set_attr_z self v h = (Ok tt, hz) /\
   attr_x self hz = (Ok x, hz) /\ attr_y self hz = (Ok y, hz) /\
   attr_z self hz = (Ok v, hz)) /\
  (forall r, r <> self ->
     hx !! r = h !! r /\ hy !! r = h !! r /\ hz !! r = h !! r).
Proof.
  intros E hx hy hz.
  pose proof (lookup_insert_heap h self _ (Vector c v y z) E) as Ex.
  pose proof (lookup_insert_heap h self _ (Vector c x v z) E) as Ey.
  pose proof (lookup_insert_heap h self _ (Vector c x y v) E) as Ez.
  split; [|split; [|split]].
  - split; [unfold set_attr_x; now rewrite (bind_ok _ _ _ _ _ (load_ok _ _ _ E))|].
    repeat split; eauto using attr_x_Vector, attr_y_Vector, attr_z_Vector, class_of_scalar.
  - split; [unfold set_attr_y; now rewrite (bind_ok _ _ _ _ _ (load_ok _ _ _ E))|].
    repeat split; eauto using attr_x_Vector, attr_y_Vector, attr_z_Vector.
  - split; [unfold set_attr_z; now rewrite (bind_ok _ _ _ _ _ (load_ok _ _ _ E))|].
    repeat split; eauto using attr_x_Vector, attr_y_Vector, attr_z_Vector.
  - intros r Hr. subst hx hy hz.
    repeat split; apply list_lookup_insert_ne; congruence.
Qed.

Lemma getitem_after_setitem h self c t k k' l :
  h !! self = Some (VectorArray c t) ->
  getitem self k'
    (<[self:=VectorArray c (mkTable (rowcount t) (<[k:=l]> (contents t)))]> h) =
  (if decide (k = k') then Ok (Arr (take (rowcount t) l)) else Table_getitem t k',
   <[self:=VectorArray c (mkTable (rowcount t) (<[k:=l]> (contents t)))]> h).
Proof.
  intros E. unfold getitem.
  rewrite (bind_ok _ _ _ _ _ (load_ok _ _ _ (lookup_insert_heap h self _ _ E))).
  unfold lift, Table_getitem. cbn [contents rowcount].
  destruct (decide (k = k')) as [->|Hne].
  - now rewrite lookup_insert_eq.
  - now rewrite lookup_insert_ne.
Qed.

(** X16: assigning the x coordinate of a batch of n rows a sequence that
    covers the rows replaces that column: its first n entries are read
    back, the y and z columns, the class and the row count are as before,
    every other object is untouched, and the equal-length invariant
    holds. *)
Theorem batch_setter_round_trip h self c t x y z l n :
  heap_wf h ->
  h !! self = Some (VectorArray c t) -> rowcount t = n ->
  columns h self x y z -> n <= length l ->
  exists h' t',
    set_attr_x self (Arr l) h = (Ok tt, h') /\
    h' !! self = Some (VectorArray c t') /\ rowcount t' = n /\
    columns h' self (take n l) y z /\
    length (take n l) = n /\
    (forall r, r <> self -> h' !! r = h !! r) /\
    heap_wf h'.
Proof.
  intros Hh E Hn (Hx & Hy & Hz) Hl. subst n.
  exists (<[self:=VectorArray c (mkTable (rowcount t) (<["fX":=l]> (contents t)))]> h),
         (mkTable (rowcount t) (<["fX":=l]> (contents t))).
  pose proof (setitem_batch h self c t "fX" l E) as Es.
  pose proof (lookup_insert_heap h self _
    (VectorArray c (mkTable (rowcount t) (<["fX":=l]> (contents t)))) E) as E'.
  split; [|split; [exact E'|split; [reflexivity|split; [|split; [|split]]]]].
  - unfold set_attr_x. now rewrite (bind_ok _ _ _ _ _ (load_ok _ _ _ E)).
  - unfold attr_y, attr_z, attr_x in *.
    rewrite (bind_ok _ _ _ _ _ (load_ok _ _ _ E)) in Hy.
    rewrite (bind_ok _ _ _ _ _ (load_ok _ _ _ E)) in Hz.
    unfold columns, attr_x, attr_y, attr_z.
    rewrite !(bind_ok _ _ _ _ _ (load_ok _ _ _ E')).
    rewrite !(getitem_after_setitem h self c t "fX" _ l E).
    unfold getitem in Hy, Hz.
    rewrite (bind_ok _ _ _ _ _ (load_ok _ _ _ E)) in Hy.
    rewrite (bind_ok _ _ _ _ _ (load_ok _ _ _ E)) in Hz.
    unfold lift in Hy, Hz. inversion Hy as [Hy']. inversion Hz as [Hz'].
    rewrite decide_True by reflexivity.
    rewrite !decide_False by discriminate.
    now rewrite Hy', Hz'.
  - rewrite length_take. lia.
  - intros r Hr. apply list_lookup_insert_ne. congruence.
  - pose proof (setitem_covering_wf h self c t "fX" l Hh E Hl) as Hp.
    now rewrite Es in Hp.
Qed.

End Setters.

(** * More on construction *)

Section ConstructorEdges.

Context {F : Type} {AF : Arith F} {TF : Trig F} {ZF : HasZero F}.
Implicit Types (h : heap F).

(** X18: the batched constructor takes the length of each of its three
    arguments: when any of them is a plain number the call raises
    TypeError and allocates nothing.  So do the batched [from_spherical]
    and [from_cylindrical] on plain numbers, and [origin] on the empty
    shape; [origin_like] on a plain number fails earlier, with
    AttributeError, since a number has no shape. *)
Theorem batched_constructors_need_sequences h cls (x y z : ndval F) (a b d : F)
    (q : pyval F) :
  (exists p, x = Num p) \/ (exists p, y = Num p) \/ (exists p, z = Num p) ->
  TVector3Array___init__ cls x y z h = (Raise TypeError, h) /\
  TVector3Array_from_spherical cls (Num a) (Num b) (Num d) h = (Raise TypeError, h) /\
  TVector3Array_from_cylindrical cls q (Num a) (Num b) (Num d) h = (Raise TypeError, h) /\
  TVector3Array_origin cls Shape0 h = (Raise TypeError, h) /\
  TVector3Array_origin_like cls (Num a) h = (Raise (AttributeError "shape"), h).
Proof.
  intros H. split; [|repeat split; reflexivity].
  unfold TVector3Array___init__.
  destruct x as [px|lx]; [reflexivity|].
  destruct y as [py|ly]; [reflexivity|].
  destruct z as [pz|lz]; [reflexivity|].
  destruct H as [[p H]|[[p H]|[p H]]]; discriminate.
Qed.

Lemma TVector3Array_origin_ok h cls n :
  TVector3Array_origin cls (Shape1 n) h =
    (Ok (length h),
     h ++ [filled cls n (replicate n f_zero) (replicate n f_zero) (replicate n f_zero)]).
Proof.
  unfold TVector3Array_origin. cbn [np_zeros].
  rewrite TVector3Array___init___ok. do 3 f_equal.
  unfold min3. rewrite length_replicate. f_equal. lia.
Qed.

Lemma TVector3Array_origin_like_ok h cls n (l : list F) :
  length l = n ->
  TVector3Array_origin_like cls (Arr l) h =
    (Ok (length h),
     h ++ [filled cls n (replicate n f_zero) (replicate n f_zero) (replicate n f_zero)]).
Proof.
  intros Hl. unfold TVector3Array_origin_like. cbn [np_shape].
  unfold bind at 1. unfold lift at 1. rewrite Hl. apply TVector3Array_origin_ok.
Qed.

(** X19: the origin: [TVector3.origin] is a new vector with three zero
    coordinates; [TVector3Array.origin] of n rows is a new batch of n rows
    whose three columns are all zero, and [origin_like] of an array has as
    many rows as the array has entries. *)
Theorem origin_is_zero h cls n (l : list F) :
  length l = n ->
  let zeros := replicate n f_zero in
  TVector3_origin cls h =
    (Ok (length h), h ++ [Vector cls (Num f_zero) (Num f_zero) (Num f_zero)]) /\
  TVector3Array_origin cls (Shape1 n) h =
    (Ok (length h), h ++ [filled cls n zeros zeros zeros]) /\
  TVector3Array_origin_like cls (Arr l) h =
    (Ok (length h), h ++ [filled cls n zeros zeros zeros]) /\
  columns (h ++ [filled cls n zeros zeros zeros]) (length h) zeros zeros zeros /\
  length zeros = n /\
  (forall i v, zeros !! i = Some v -> v = f_zero).
Proof.
  intros Hl zeros.
  assert (Lz : length zeros = n) by apply length_replicate.
  split; [reflexivity|]. split; [apply TVector3Array_origin_ok|].
  split; [now apply TVector3Array_origin_like_ok|].
  split; [now apply filled_columns_exact|].
  split; [exact Lz|].
  intros i v Hv. apply lookup_replicate in Hv. tauto.
Qed.

End ConstructorEdges.

Section OriginNeutral.

Local Open Scope R_scope.
Implicit Types (h : heap R).

Lemma zip_with_plus_zeros (x : list R) :
  zip_with Rplus x (replicate (length x) 0) = x.
Proof.
  induction x as [|a x IH]; [reflexivity|].
  simpl. rewrite IH. f_equal. ring.
Qed.

(** X20: adding the origin changes nothing: the sum, through the dispatch, of a
    batch of n rows and the batch [origin_like] built for an array of n
    entries is a new batch with the columns of the first. *)
Theorem adding_origin_is_neutral h v c t n x y z (l : list R) :
  h !! v = Some (VectorArray c t) -> rowcount t = n ->
  columns h v x y z ->
  length x = n -> length y = n -> length z = n -> length l = n ->
  exists o h1,
    TVector3Array_origin_like "TVector3Array" (Arr l) h = (Ok o, h1) /\
    __array_ufunc__ v numpy_add "__call__" [PRef v; PRef o] [] h1 =
      (Ok (PRef (length h1)), h1 ++ [filled c n x y z]) /\
    columns (h1 ++ [filled c n x y z]) (length h1) x y z.
Proof.
  intros E Hn C Lx Ly Lz Ll.
  pose proof (TVector3Array_origin_like_ok (F:=R) h "TVector3Array" n l Ll) as Eo.
  set (zeros := replicate n f_zero) in *.
  assert (Lzeros : length zeros = n) by apply length_replicate.
  pose proof (filled_columns_exact h "TVector3Array" n zeros zeros zeros
                Lzeros Lzeros Lzeros) as Co.
  do 2 eexists. split; [exact Eo|].
  set (h1 := h ++ [filled "TVector3Array" n zeros zeros zeros]) in *.
  assert (E1 : h1 !! v = Some (VectorArray c t)) by now apply lookup_app_l_Some.
  assert (C1 : columns h1 v x y z) by now apply (columns_frame h _ v c t).
  pose proof C1 as (X1 & Y1 & Z1). pose proof Co as (X0 & Y0 & Z0).
  split; [|now apply filled_columns_exact].
  rewrite <- Hn. unfold numpy_add.
  replace (filled c (rowcount t) x y z)
    with (filled c (rowcount t) (zip_with Rplus x zeros) (zip_with Rplus y zeros)
                 (zip_with Rplus z zeros)).
  2:{ assert (Zx : zip_with Rplus x zeros = x)
        by (subst zeros; rewrite <- Lx; exact (zip_with_plus_zeros x)).
      assert (Zy : zip_with Rplus y zeros = y)
        by (subst zeros; rewrite <- Ly; exact (zip_with_plus_zeros y)).
      assert (Zz : zip_with Rplus z zeros = z)
        by (subst zeros; rewrite <- Lz; exact (zip_with_plus_zeros z)).
      now rewrite Zx, Zy, Zz. }
  apply dispatch_binary
    with (ax := Arr x) (ay := Arr y) (az := Arr z)
         (bx := Arr zeros) (by_ := Arr zeros) (bz := Arr zeros); trivial;
    try (apply np_binop_arrays; lia).
  apply (split_inputs_batch h1 v c t); trivial.
  apply (split_inputs_batch h1 (length h) "TVector3Array"
           (mkTable n (<["fZ":=zeros]> (<["fY":=zeros]> (<["fX":=zeros]> ∅)))));
    trivial.
  apply lookup_fresh.
Qed.

End OriginNeutral.

(** * Batches against scalar vectors *)

Section BatchScalar.

Context {F : Type} {AF : Arith F} {TF : Trig F}.
Implicit Types (h : heap F) (self other : ref) (n : nat).

Lemma scaled_difference_row (p q : list F) (a b : F) i u v :
  p !! i = Some u -> q !! i = Some v ->
  zip_with f_sub (map (fun e => f_mul e a) p) (map (fun e => f_mul e b) q) !! i
    = Some (f_sub (f_mul u a) (f_mul v b)).
Proof.
  intros Hp Hq. apply lookup_zip_with_Some. do 2 eexists.
  split; [reflexivity|]. split; apply list_lookup_fmap_Some; eauto.
Qed.

(** X11: the cross product of a batch with one scalar vector broadcasts the
    scalar vector over the rows: the result is a new batch of the
    receiver's class and row count whose row [i] is the cross product of
    row [i] with that vector. *)
Theorem ArrayMethods_cross_with_scalar_vector
    h self other c t co n x1 y1 z1 (bx by_ bz : F) :
  h !! self = Some (VectorArray c t) -> rowcount t = n ->
  columns h self x1 y1 z1 ->
  length x1 = n -> length y1 = n -> length z1 = n ->
  h !! other = Some (Vector co (Num bx) (Num by_) (Num bz)) ->
  exists cx cy cz,
    ArrayMethods_cross self other h = (Ok (length h), h ++ [filled c n cx cy cz]) /\
    columns (h ++ [filled c n cx cy cz]) (length h) cx cy cz /\
    forall i ax ay az,
      x1 !! i = Some ax -> y1 !! i = Some ay -> z1 !! i = Some az ->
      cx !! i = Some (f_sub (f_mul ay bz) (f_mul az by_)) /\
      cy !! i = Some (f_sub (f_mul az bx) (f_mul ax bz)) /\
      cz !! i = Some (f_sub (f_mul ax by_) (f_mul ay bx)).
Proof.
  intros E Hn (X1 & Y1 & Z1) Lx Ly Lz Eo.
  pose proof (attr_x_Vector _ _ _ _ _ _ Eo) as X2.
  pose proof (attr_y_Vector _ _ _ _ _ _ Eo) as Y2.
  pose proof (attr_z_Vector _ _ _ _ _ _ Eo) as Z2.
  do 3 eexists. split; [|split].
  - unfold ArrayMethods_cross, _cross.
    erewrite (bind_ok (bind _ _)).
    2:{ do 3 (erewrite bind_ok by eval_columns). reflexivity. }
    cbv beta iota.
    rewrite (bind_ok _ _ _ _ _ (empty_like_batch _ _ _ _ E)).
    rewrite Hn. apply fill_fresh; rewrite !length_zip_with, !length_map; lia.
  - apply filled_columns_exact; rewrite !length_zip_with, !length_map; lia.
  - intros i ax ay az Hax Hay Haz.
    repeat split; now apply scaled_difference_row.
Qed.

End BatchScalar.

Section AxisRows.

Local Open Scope R_scope.
Implicit Types (h : heap R) (self axis u : ref) (n : nat).

Lemma combination_row_real (a b c : R) (xs ys zs : list R) i x y z :
  xs !! i = Some x -> ys !! i = Some y -> zs !! i = Some z ->
  zip_with Rplus (zip_with Rplus (map (Rmult a) xs) (map (Rmult b) ys))
           (map (Rmult c) zs) !! i = Some (a * x + b * y + c * z).
Proof. exact (combination_row (F:=R) a b c xs ys zs i x y z). Qed.

(** X8: the batched axis rotation with a scalar axis and a scalar angle
    rotates every row: when [unit] returns the axis (ux, uy, uz), the
    result is a new batch of the receiver's class and row count whose row
    [i] is the rotation matrix of that axis and angle applied to row
    [i]. *)
Theorem ArrayMethods_rotate_axis_rows (unit_ : ref -> M R ref) h h1 self axis a u
    c t cu n xs ys zs ux uy uz :
  unit_ axis h = (Ok u, h1) ->
  h1 !! u = Some (Vector cu (Num ux) (Num uy) (Num uz)) ->
  h1 !! self = Some (VectorArray c t) -> rowcount t = n ->
  columns h1 self xs ys zs ->
  length xs = n -> length ys = n -> length zs = n ->
  exists xr yr zr,
    ArrayMethods_rotate_axis unit_ self axis (Num a) h =
      (Ok (length h1), h1 ++ [filled c n xr yr zr]) /\
    columns (h1 ++ [filled c n xr yr zr]) (length h1) xr yr zr /\
    forall i x y z,
      xs !! i = Some x -> ys !! i = Some y -> zs !! i = Some z ->
      exists x' y' z',
        xr !! i = Some x' /\ yr !! i = Some y' /\ zr !! i = Some z' /\
        (x', y', z') = rodrigues (cos a) (sin a) (ux, uy, uz) (x, y, z).
Proof.
  intros Eu Hu E Hn (X1 & Y1 & Z1) Lx Ly Lz.
  pose proof (attr_x_Vector _ _ _ _ _ _ Hu) as UX.
  pose proof (attr_y_Vector _ _ _ _ _ _ Hu) as UY.
  pose proof (attr_z_Vector _ _ _ _ _ _ Hu) as UZ.
  do 3 eexists. split; [|split].
  - unfold ArrayMethods_rotate_axis, _rotate_axis, pow2. cbv zeta.
    erewrite (bind_ok (bind _ _)).
    2:{ rewrite (bind_ok _ _ _ _ _ Eu).
        do 4 (erewrite bind_ok by eval_columns). reflexivity. }
    cbv beta iota.
    rewrite (bind_ok _ _ _ _ _ (empty_like_batch _ _ _ _ E)).
    rewrite Hn. cbn [f_add f_mul f_sub f_one R_Arith].
    apply fill_fresh; rewrite !length_zip_with, !length_map; lia.
  - apply filled_columns_exact; rewrite !length_zip_with, !length_map; lia.
  - intros i x y z Hx Hy Hz. do 3 eexists.
    split; [eapply combination_row_real; eassumption|].
    split; [eapply combination_row_real; eassumption|].
    split; [eapply combination_row_real; eassumption|].
    cbn. apply (f_equal2 pair); [apply (f_equal2 pair)|]; ring.
Qed.

End AxisRows.

(** * Further instances on concrete heaps *)

Section MoreInstances.

Lemma ArrayMethods_cross_rows_witness :
  exists cx cy cz,
    ArrayMethods_cross 0%nat 1%nat two_batches_Q =
      (Ok 2%nat, two_batches_Q ++ [filled "TVector3Array" 2 cx cy cz]).
Proof.
  destruct (ArrayMethods_cross_rows two_batches_Q 0%nat 1%nat "TVector3Array" _ 2%nat
              [1; 2]%Q [3; 4]%Q [5; 6]%Q [10; 20]%Q [30; 40]%Q [50; 60]%Q
              eq_refl eq_refl
              (conj eq_refl (conj eq_refl eq_refl))
              (conj eq_refl (conj eq_refl eq_refl))
              eq_refl eq_refl eq_refl eq_refl eq_refl eq_refl)
    as (cx & cy & cz & H & _).
  exists cx, cy, cz. exact H.
Defined.

Lemma dispatch_per_coordinate_witness :
  __array_ufunc__ 0%nat (unary_ufunc Qopp) "__call__" [PRef 0%nat] [] two_batches_Q =
    (Ok (PRef 2%nat),
     two_batches_Q ++
       [filled "TVector3Array" 2 (map Qopp [1; 2]) (map Qopp [3; 4])
          (map Qopp [5; 6])]%Q).
Proof.
  exact (proj1 (dispatch_per_coordinate two_batches_Q 0%nat "TVector3Array" _
                  (unary_ufunc Qopp) _ [PRef 0%nat] _ _ _
                  (map Qopp [1; 2]%Q) (map Qopp [3; 4]%Q) (map Qopp [5; 6]%Q)
                  eq_refl eq_refl
                  (split_batch two_batches_Q 0%nat _ _ [1; 2]%Q [3; 4]%Q [5; 6]%Q [] [] [] []
                     eq_refl (conj eq_refl (conj eq_refl eq_refl)) (split_nil _))
                  eq_refl eq_refl eq_refl (le_n 2) (le_n 2) (le_n 2))).
Defined.

Lemma dispatch_tuple_outputs_witness :
  __array_ufunc__ 0%nat (two_output_ufunc Qopp Qinv) "__call__" [PRef 0%nat] []
      two_batches_Q =
    (Ok (PTuple [PRef 2%nat; PRef 3%nat]),
     two_batches_Q ++
       [filled "TVector3Array" 2 (map Qopp [1; 2]) (map Qopp [3; 4]) (map Qopp [5; 6]);
        filled "TVector3Array" 2 (map Qinv [1; 2]) (map Qinv [3; 4])
          (map Qinv [5; 6])]%Q).
Proof.
  refine (dispatch_tuple_outputs two_batches_Q 0%nat "TVector3Array" _
            (two_output_ufunc Qopp Qinv) _ [PRef 0%nat] _ _ _
            [map Qopp [1; 2]; map Qinv [1; 2]]%Q
            [map Qopp [3; 4]; map Qinv [3; 4]]%Q
            [map Qopp [5; 6]; map Qinv [5; 6]]%Q
            eq_refl eq_refl
            (split_batch two_batches_Q 0%nat _ _ [1; 2]%Q [3; 4]%Q [5; 6]%Q [] [] [] []
               eq_refl (conj eq_refl (conj eq_refl eq_refl)) (split_nil _))
            eq_refl eq_refl eq_refl _ _ _ eq_refl eq_refl);
    repeat constructor.
Defined.

Lemma scalar_setters_round_trip_witness :
  set_attr_x 0%nat (Num 7%Q) three_vectors =
    (Ok tt, <[0%nat:=Vector "TVector3" (Num 7%Q) (Num 2%Q) (Num 3%Q)]> three_vectors).
Proof.
  exact (proj1 (proj1 (scalar_setters_round_trip three_vectors 0%nat "TVector3"
                         (Num 1%Q) (Num 2%Q) (Num 3%Q) (Num 7%Q) eq_refl))).
Defined.

Local Open Scope R_scope.

Lemma batch_setter_round_trip_witness :
  exists h' t',
    set_attr_x 0%nat (Arr [7; 8; 9]) two_batches_R = (Ok tt, h') /\
    h' !! 0%nat = Some (VectorArray "TVector3Array" t') /\ rowcount t' = 2%nat /\
    columns h' 0%nat [7; 8] [3; 4] [5; 6].
Proof.
  destruct (batch_setter_round_trip two_batches_R 0%nat "TVector3Array" _
              [1; 2] [3; 4] [5; 6] [7; 8; 9] 2%nat
              two_batches_R_wf eq_refl eq_refl
              (conj eq_refl (conj eq_refl eq_refl)) (le_S _ _ (le_n 2)))
    as (h' & t' & H1 & H2 & H3 & H4 & _).
  exists h', t'. exact (conj H1 (conj H2 (conj H3 H4))).
Defined.

Lemma batched_constructors_need_sequences_witness :
  TVector3Array___init__ "TVector3Array" (Arr [1; 2]) (Num 3) (Arr [4; 5])
      two_batches_R = (Raise TypeError, two_batches_R).
Proof.
  exact (proj1 (batched_constructors_need_sequences two_batches_R "TVector3Array"
                  (Arr [1; 2]) (Num 3) (Arr [4; 5]) 1 2 3 PNone
                  (or_intror (or_introl (ex_intro _ 3 eq_refl))))).
Defined.

Lemma origin_is_zero_witness :
  TVector3Array_origin_like "TVector3Array" (Arr [5; 6]) two_batches_R =
    (Ok 3%nat,
     two_batches_R ++ [filled "TVector3Array" 2 [0; 0] [0; 0] [0; 0]]).
Proof.
  exact (proj1 (proj2 (proj2 (origin_is_zero two_batches_R "TVector3Array" 2%nat
                                [5; 6] eq_refl)))).
Defined.

Lemma ArrayMethods_rotate_euler_rows_witness :
  exists xr yr zr,
    ArrayMethods_rotate_euler 0%nat (Num 1) (Num 2) (Num 3) two_batches_R =
      (Ok 3%nat, two_batches_R ++ [filled "TVector3Array" 2 xr yr zr]).
Proof.
  destruct (ArrayMethods_rotate_euler_rows two_batches_R 0%nat "TVector3Array" _ 2%nat
              [1; 2] [3; 4] [5; 6] 1 2 3 eq_refl eq_refl
              (conj eq_refl (conj eq_refl eq_refl)) eq_refl eq_refl eq_refl)
    as (xr & yr & zr & H & _).
  exists xr, yr, zr. exact H.
Defined.

Lemma rotate_axis_zero_angle_witness :
  Methods_rotate_axis unit_copy 0%nat 1%nat (Num 0) two_vectors_R =
    (Ok 3%nat,
     (two_vectors_R ++ [Vector "Sub" (Num 0) (Num 0) (Num 1)])
       ++ [Vector "TVector3" (Num 1) (Num 2) (Num 3)]).
Proof.
  exact (rotate_axis_zero_angle unit_copy two_vectors_R
           (two_vectors_R ++ [Vector "Sub" (Num 0) (Num 0) (Num 1)])
           0%nat 1%nat 2%nat "TVector3" "Sub" 1 2 3 0 0 1
           eq_refl eq_refl eq_refl).
Defined.

Lemma adding_origin_is_neutral_witness :
  exists o h1,
    TVector3Array_origin_like "TVector3Array" (Arr [7; 8]) two_batches_R = (Ok o, h1) /\
    __array_ufunc__ 0%nat numpy_add "__call__" [PRef 0%nat; PRef o] [] h1 =
      (Ok (PRef (length h1)), h1 ++ [filled "TVector3Array" 2 [1; 2] [3; 4] [5; 6]]).
Proof.
  destruct (adding_origin_is_neutral two_batches_R 0%nat "TVector3Array" _ 2%nat
              [1; 2] [3; 4] [5; 6] [7; 8] eq_refl eq_refl
              (conj eq_refl (conj eq_refl eq_refl))
              eq_refl eq_refl eq_refl eq_refl)
    as (o & h1 & H1 & H2 & _).
  exists o, h1. exact (conj H1 H2).
Defined.

Lemma ArrayMethods_cross_with_scalar_vector_witness :
  exists cx cy cz,
    ArrayMethods_cross 0%nat 2%nat two_batches_R =
      (Ok 3%nat, two_batches_R ++ [filled "TVector3Array" 2 cx cy cz]).
Proof.
  destruct (ArrayMethods_cross_with_scalar_vector two_batches_R 0%nat 2%nat
              "TVector3Array" _ "TVector3" 2%nat [1; 2] [3; 4] [5; 6] 0 0 1
              eq_refl eq_refl (conj eq_refl (conj eq_refl eq_refl))
              eq_refl eq_refl eq_refl eq_refl)
    as (cx & cy & cz & H & _).
  exists cx, cy, cz. exact H.
Defined.

Lemma ArrayMethods_rotate_axis_rows_witness :
  exists xr yr zr,
    ArrayMethods_rotate_axis unit_copy 0%nat 2%nat (Num 5) two_batches_R =
      (Ok 4%nat,
       (two_batches_R ++ [Vector "TVector3" (Num 0) (Num 0) (Num 1)])
         ++ [filled "TVector3Array" 2 xr yr zr]).
Proof.
  destruct (ArrayMethods_rotate_axis_rows unit_copy two_batches_R
              (two_batches_R ++ [Vector "TVector3" (Num 0) (Num 0) (Num 1)])
              0%nat 2%nat 5 3%nat "TVector3Array" _ "TVector3" 2%nat
              [1; 2] [3; 4] [5; 6] 0 0 1
              eq_refl eq_refl eq_refl eq_refl
              (conj eq_refl (conj eq_refl eq_refl)) eq_refl eq_refl eq_refl)
    as (xr & yr & zr & H & _).
  exists xr, yr, zr. exact H.
Defined.

End MoreInstances.
